(** * GenVR MCP server: tool naming, argument routing, schema translation
      and the completion poller

    The development embeds the two entry points of the repository:

    - [Worker]: the Cloudflare Worker of [src/index.ts]
      ([makeGenVRRequest], [waitForCompletion], [MyMCP.init]);
    - [Standalone]: the stdio server ([callGenVRAPI], [waitForCompletion],
      [generateTools] and the [CallToolRequestSchema] handler).

    JSON data is modelled by the inductive [value]; JavaScript objects used
    as dictionaries are finite maps [gmap string value].  The remote API is
    an arbitrary function from the number of HTTP calls issued so far to the
    response of the next call; every effect of the code that the properties
    speak about (HTTP requests and sleeps) is recorded in a log.  Console
    output is not modelled. *)

From Stdlib Require Import QArith Qminmax Qpower Lqa.
From Stdlib Require Import Numbers.DecimalString Strings.Ascii.
From stdpp Require Import base option list strings gmap fin_maps.

Set Warnings "-register-all".

(** ** JSON values *)

(** A number is represented by the text [String(n)] gives for it: that text
    determines the number, and it is all the code ever uses of a number
    (truthiness and interpolation into a template string). *)
Inductive value : Type :=
  | JNull
  | JBool (b : bool)
  | JNum (text : string)
  | JStr (s : string)
  | JArr (items : list value)
  | JObj (fields : gmap string value).

(** A possibly [undefined] JavaScript value. *)
Abbreviation jsval := (option value).

Module Js.

(** [!!v] on a defined value. *)
Definition truthy (v : value) : bool :=
  match v with
  | JNull => false
  | JBool b => b
  | JNum t => negb (String.eqb t "0") && negb (String.eqb t "NaN")
  | JStr s => negb (String.eqb s "")
  | JArr _ => true
  | JObj _ => true
  end.

(** [!!v] where [v] may be [undefined]. *)
Definition truthy_opt (v : jsval) : bool :=
  match v with
  | Some x => truthy x
  | None => false
  end.

(** [a || b]. *)
Definition or_else (a b : jsval) : jsval :=
  if truthy_opt a then a else b.

(** [a && f(a)]: the left operand when it is falsy. *)
Definition and_then (a : jsval) (f : value → jsval) : jsval :=
  match a with
  | Some x => if truthy x then f x else a
  | None => None
  end.

(** [typeof v === 'object'] ([null], arrays and objects). *)
Definition typeof_object (v : value) : bool :=
  match v with
  | JNull | JArr _ | JObj _ => true
  | _ => false
  end.

(** Decimal rendering of an array index or of an HTTP status code. *)
Definition nat_to_string (n : nat) : string :=
  NilZero.string_of_uint (Nat.to_uint n).

(** The entries [("0", x0); ("1", x1); ...] of an array-like value. *)
Fixpoint indexed {A : Type} (i : nat) (l : list A) : list (string * A) :=
  match l with
  | [] => []
  | x :: l' => (nat_to_string i, x) :: indexed (S i) l'
  end.

(** The characters of a string, as one-character strings. *)
Fixpoint chars (s : string) : list value :=
  match s with
  | EmptyString => []
  | String c s' => JStr (String c EmptyString) :: chars s'
  end.

(** The own enumerable properties of a value: what [{...v}] copies and what
    [Object.entries(v)] lists.  [null] has none here; where the code reads a
    property of [null] it raises a [TypeError], which the callers model. *)
Definition own (v : value) : gmap string value :=
  match v with
  | JObj o => o
  | JArr l => list_to_map (indexed 0 l)
  | JStr s => list_to_map (indexed 0 (chars s))
  | _ => ∅
  end.

(** [v.k] for a non-null [v] and a name [k] that is neither ["length"] nor
    inherited from a prototype (true of every name the code reads). *)
Definition get (v : value) (k : string) : jsval := own v !! k.

(** [v?.k] where [v] may be [undefined] or [null]. *)
Definition get_opt (v : jsval) (k : string) : jsval :=
  match v with
  | None | Some JNull => None
  | Some x => get x k
  end.

(** [Object.entries(v)]. *)
Definition entries (v : value) : list (string * value) := map_to_list (own v).

(** A field [k: e] of an object literal that is then serialised:
    an [undefined] value leaves no field. *)
Definition set_field (k : string) (e : jsval) (o : gmap string value)
  : gmap string value :=
  match e with
  | Some v => <[k := v]> o
  | None => delete k o
  end.

(** [`${v}`] for a defined value: [String(v)]. *)
Fixpoint to_string (v : value) : string :=
  match v with
  | JNull => "null"
  | JBool true => "true"
  | JBool false => "false"
  | JNum t => t
  | JStr s => s
  | JArr l =>
      String.concat ","
        ((fix go (l : list value) : list string :=
            match l with
            | [] => []
            | JNull :: l' => "" :: go l'
            | x :: l' => to_string x :: go l'
            end) l)
  | JObj _ => "[object Object]"
  end.

(** [`${v}`] where [v] may be [undefined]. *)
Definition template (v : jsval) : string :=
  match v with
  | Some x => to_string x
  | None => "undefined"
  end.

(** [s.startsWith(p)]. *)
Definition startsWith (s p : string) : bool := String.prefix p s.

(** [s.slice(n)] on a string. *)
Fixpoint skip (n : nat) (s : string) : string :=
  match n, s with
  | S n', String _ s' => skip n' s'
  | _, _ => s
  end.

(** [s.replace(pat, rep)] for a string pattern: the first occurrence only. *)
Fixpoint replace (pat rep s : string) : string :=
  if String.prefix pat s then rep +:+ skip (String.length pat) s
  else match s with
       | EmptyString => EmptyString
       | String c s' => String c (replace pat rep s')
       end.

(** [s.split(sep)] for a one-character separator. *)
Fixpoint split (sep : Ascii.ascii) (s : string) : list string :=
  match s with
  | EmptyString => [EmptyString]
  | String c s' =>
      if Ascii.eqb c sep then EmptyString :: split sep s'
      else match split sep s' with
           | h :: t => String c h :: t
           | [] => [String c EmptyString]
           end
  end.

(** [parts.join(sep)]. *)
Definition join (sep : string) (parts : list string) : string :=
  String.concat sep parts.

(** [s.includes(k)]: [k] occurs in [s]. *)
Fixpoint includes (k s : string) : bool :=
  String.prefix k s ||
  match s with
  | EmptyString => false
  | String _ s' => includes k s'
  end.

End Js.

(** ** The remote API and the effects of a run *)

(** The result of a computation that may [throw new Error(message)]. *)
Inductive outcome (A : Type) : Type :=
  | Ret (a : A)
  | Throw (message : string).
Arguments Ret {A} a.
Arguments Throw {A} message.

(** An HTTP response: status line, the body as [response.text()] gives it
    and what [response.json()] gives (a parse error is a thrown
    [SyntaxError]). *)
Record reply : Type := Reply {
  status : nat;
  statusText : string;
  text : string;
  json : outcome value;
}.

(** What one [fetch] does: it resolves with a response or rejects (network
    error). *)
Inductive http_response : Type :=
  | NetworkFailure (message : string)
  | Resolved (r : reply).

(** [response.ok]: the status is in the range 200-299. *)
Definition ok (r : reply) : bool :=
  (200 <=? status r)%nat && (status r <=? 299)%nat.

(** A request as it leaves the process: the endpoint appended to the API
    base, the serialised JSON body, and the value interpolated into the
    [Authorization: Bearer ...] header. *)
Record request : Type := Request {
  endpoint : string;
  body : gmap string value;
  bearer : jsval;
}.

Inductive event : Type :=
  | Fetch (r : request)
  | Sleep (ms : Q).

(** The remote system: the response to the [n]-th HTTP call of a run. *)
Abbreviation remote := (nat → http_response).

Record world : Type := World {
  calls : nat;
  log : list event;
}.

(** Computations read the remote system, thread the world and may throw. *)
Definition M (A : Type) : Type := remote → world → outcome A * world.

#[global] Instance M_ret : MRet M := λ A a _ w, (Ret a, w).

#[global] Instance M_bind : MBind M := λ A B k m env w,
  match m env w with
  | (Ret a, w') => k a env w'
  | (Throw e, w') => (Throw e, w')
  end.

Definition throw {A : Type} (message : string) : M A := λ _ w, (Throw message, w).

(** [try { m } catch (error) { handler(error.message) }]. *)
Definition try_catch {A : Type} (m : M A) (handler : string → M A) : M A :=
  λ env w,
    match m env w with
    | (Ret a, w') => (Ret a, w')
    | (Throw e, w') => handler e env w'
    end.

(** A pure step that may throw. *)
Definition lift {A : Type} (o : outcome A) : M A := λ _ w, (o, w).

(** [await fetch(url, {method, headers, body})]. *)
Definition fetch (r : request) : M reply :=
  λ env w,
    let w' := {| calls := S (calls w); log := log w ++ [Fetch r] |} in
    match env (calls w) with
    | NetworkFailure e => (Throw e, w')
    | Resolved rep => (Ret rep, w')
    end.

(** [await new Promise(resolve => setTimeout(resolve, ms))]. *)
Definition sleep (ms : Q) : M unit :=
  λ _ w, (Ret tt, {| calls := calls w; log := log w ++ [Sleep ms] |}).

(** A run from the initial world. *)
Definition run {A : Type} (m : M A) (env : remote) : outcome A * world :=
  m env {| calls := 0; log := [] |}.

(** [Math.min(2000 * Math.pow(1.5, i), 10000)], as the rational number the
    expression denotes. *)
Definition delay (i : nat) : Q :=
  Qmin (2000 * (3 # 2) ^ Z.of_nat i) 10000.

(** A loop whose body may throw. *)
Fixpoint for_each {S A : Type} (f : S → A → outcome S) (s : S) (l : list A)
  : outcome S :=
  match l with
  | [] => Ret s
  | a :: l' =>
      match f s a with
      | Ret s' => for_each f s' l'
      | Throw e => Throw e
      end
  end.

(** [v.k]: reading a property of [null] throws a [TypeError]. *)
Definition member (v : value) (k : string) : outcome jsval :=
  match v with
  | JNull => Throw ("Cannot read properties of null (reading '" +:+ k +:+ "')")
  | _ => Ret (Js.get v k)
  end.

(** [status === "completed"] and the like. *)
Definition is_string (v : jsval) (s : string) : bool :=
  match v with
  | Some (JStr s') => String.eqb s' s
  | _ => false
  end.

(** The body [{id: taskId, category, subcategory}] of a status or
    fetch-result request. *)
Definition task_body (taskId : value) (category subcategory : jsval)
  : gmap string value :=
  Js.set_field "subcategory" subcategory
    (Js.set_field "category" category
      (Js.set_field "id" (Some taskId) ∅)).

(** [statusData.data?.status || statusData.status] for a non-null
    [statusData]. *)
Definition task_status (statusData : value) : jsval :=
  Js.or_else (Js.get_opt (Js.get statusData "data") "status") (Js.get statusData "status").

(** [statusData.data?.error || statusData.error]. *)
Definition task_error (statusData : value) : jsval :=
  Js.or_else (Js.get_opt (Js.get statusData "data") "error") (Js.get statusData "error").

(** [`Task failed: ${error || "Unknown error"}`]. *)
Definition task_failed (error : jsval) : string :=
  "Task failed: " +:+ Js.template (Js.or_else error (Some (JStr "Unknown error"))).

(** The result of a tool call.  Every content entry is of type ["text"];
    [Stringify v] stands for the text [JSON.stringify(v, null, 2)].  A result
    without an [isError] field has [isError = false]. *)
Inductive text_content : Type :=
  | Literal (s : string)
  | Stringify (v : jsval).

Record tool_result : Type := ToolResult {
  content : list text_content;
  isError : bool;
  structuredContent : jsval;
}.

(** ** The stdio server *)

Module Standalone.

Section Config.

(** The credentials of the process environment; the server exits at start
    when one of them is missing. *)
Context (GENVR_USER_ID GENVR_ACCESS_TOKEN : string).

(** The request [callGenVRAPI] sends: the body with the [uid] of the
    process added, and its access token as bearer. *)
Definition api_request (endpoint : string) (body : gmap string value) : request :=
  {| endpoint := endpoint;
     body := Js.set_field "uid" (Some (JStr GENVR_USER_ID)) body;
     bearer := Some (JStr GENVR_ACCESS_TOKEN) |}.

(** The message of the error thrown for a response that is not [ok]. *)
Definition api_error (response : reply) : string :=
  "GenVR API error: " +:+ Js.nat_to_string (status response) +:+ " "
    +:+ statusText response +:+ " - " +:+ text response.

(** [callGenVRAPI(endpoint, body)], for the object bodies it is called
    with. *)
Definition callGenVRAPI (endpoint : string) (body : gmap string value) : M value :=
  response ← fetch (api_request endpoint body);
  if negb (ok response) then throw (api_error response)
  else lift (json response).

(** The body of the loop of [waitForCompletion], from iteration [i] with
    [remaining = maxAttempts - i] iterations left. *)
Fixpoint waitForCompletion_loop (taskId : value) (category subcategory : jsval)
    (remaining i : nat) : M value :=
  match remaining with
  | O => throw "Task timed out"
  | S remaining' =>
      statusData ← callGenVRAPI "/status" (task_body taskId category subcategory);
      _ ← lift (member statusData "data");
      let status := task_status statusData in
      if is_string status "completed" then
        callGenVRAPI "/response" (task_body taskId category subcategory)
      else if is_string status "failed" then
        throw (task_failed (task_error statusData))
      else
        sleep (delay i);;
        waitForCompletion_loop taskId category subcategory remaining' (S i)
  end.

Definition waitForCompletion (taskId : value) (category subcategory : jsval)
    (maxAttempts : nat) : M value :=
  waitForCompletion_loop taskId category subcategory maxAttempts 0.

(** *** The tool registry *)

(** An entry of [availableModels]. *)
Record model : Type := Model {
  category : string;
  subcategory : string;
  name : string;
  description : jsval;
}.

Record input_schema : Type := InputSchema {
  type : string;
  properties : gmap string value;
  required : list string;
}.

Record tool : Type := Tool {
  tool_name : string;
  tool_description : string;
  inputSchema : input_schema;
}.

(** The GenVR internal fields that [generateTools] never exposes. *)
Definition internal_field (key : string) : bool :=
  String.eqb key "category_genvr" || String.eqb key "subcategory_genvr"
  || String.eqb key "uid" || String.eqb key "token".

(** [prop.display === 'hidden']. *)
Definition hidden (prop : value) : bool :=
  is_string (Js.get prop "display") "hidden".

(** [if (prop.k !== undefined) propDef.k = prop.k]. *)
Definition copy_defined (prop : value) (k : string) (propDef : gmap string value)
  : gmap string value :=
  match Js.get prop k with
  | Some v => <[k := v]> propDef
  | None => propDef
  end.

(** The [propDef] built for a visible property. *)
Definition property_definition (key : string) (prop : value) : gmap string value :=
  let propDef :=
    Js.set_field "description"
      (Js.or_else (Js.get prop "description") (Some (JStr ("Parameter: " +:+ key))))
      (Js.set_field "type"
        (Js.or_else (Js.get prop "type") (Some (JStr "string"))) ∅) in
  let propDef :=
    match Js.get prop "enum" with
    | Some (JArr items) => <["enum" := JArr items]> propDef
    | _ => propDef
    end in
  let propDef := copy_defined prop "default" propDef in
  let propDef := copy_defined prop "minimum" propDef in
  let propDef := copy_defined prop "maximum" propDef in
  let propDef := copy_defined prop "maxItems" propDef in
  if is_string (Js.get prop "type") "array" && Js.truthy_opt (Js.get prop "items")
  then Js.set_field "items" (Js.get prop "items") propDef
  else propDef.

(** [required?.includes(key)]: arrays and strings have an [includes]
    method; calling it on another defined value is a [TypeError]. *)
Definition required_includes (required : jsval) (key : string) : outcome bool :=
  match required with
  | None | Some JNull => Ret false
  | Some (JArr items) => Ret (existsb (λ v, is_string (Some v) key) items)
  | Some (JStr s) => Ret (Js.includes key s)
  | Some _ => Throw "cachedSchema.schema.required?.includes is not a function"
  end.

(** One call of the [forEach] callback over [Object.entries(properties)]. *)
Definition translate_entry (schema : value)
    (acc : gmap string value * list string) (entry : string * value)
  : outcome (gmap string value * list string) :=
  let '(properties, required) := acc in
  let '(key, prop) := entry in
  match member prop "display" with
  | Throw e => Throw e
  | Ret display =>
      if is_string display "hidden" then Ret acc
      else if internal_field key then Ret acc
      else
        let properties := <[key := JObj (property_definition key prop)]> properties in
        match required_includes (Js.get schema "required") key with
        | Throw e => Throw e
        | Ret true => Ret (properties, required ++ [key])
        | Ret false => Ret (properties, required)
        end
  end.

(** [cachedSchema && cachedSchema.schema && cachedSchema.schema.properties]
    together with the schema it was read from. *)
Definition cached_properties (cachedSchema : jsval) : option (value * value) :=
  match cachedSchema with
  | Some cs =>
      if Js.truthy cs then
        match Js.get cs "schema" with
        | Some schema =>
            if Js.truthy schema then
              match Js.get schema "properties" with
              | Some props => if Js.truthy props then Some (schema, props) else None
              | None => None
              end
            else None
        | None => None
        end
      else None
  | None => None
  end.

(** The [inputSchema] of one model. *)
Definition translate (cachedSchema : jsval) : outcome input_schema :=
  match cached_properties cachedSchema with
  | Some (schema, props) =>
      match for_each (translate_entry schema) (∅, []) (Js.entries props) with
      | Ret (properties, required) =>
          Ret {| type := "object"; properties := properties; required := required |}
      | Throw e => Throw e
      end
  | None => Ret {| type := "object"; properties := ∅; required := [] |}
  end.

Definition toolName (m : model) : string :=
  "generate_" +:+ category m +:+ "_" +:+ subcategory m.

Definition make_tool (schemasCache : gmap string value) (m : model) : outcome tool :=
  let schemaKey := category m +:+ "/" +:+ subcategory m in
  let cachedSchema := schemasCache !! schemaKey in
  match translate cachedSchema with
  | Throw e => Throw e
  | Ret inputSchema =>
      Ret {| tool_name := toolName m;
             tool_description :=
               "Generate content using " +:+ name m +:+ ". Category: " +:+ category m
               +:+ ", Model: " +:+ subcategory m +:+ ". "
               +:+ Js.template
                     (Js.or_else
                        (Js.or_else (description m) (Js.get_opt cachedSchema "description"))
                        (Some (JStr "")));
             inputSchema := inputSchema |}
  end.

(** [generateTools()] once [availableModels] is loaded. *)
Definition generateTools (availableModels : list model)
    (schemasCache : gmap string value) : outcome (list tool) :=
  for_each
    (λ tools m,
       match make_tool schemasCache m with
       | Ret t => Ret (tools ++ [t])
       | Throw e => Throw e
       end)
    [] availableModels.

(** *** The call handler *)

(** The category and subcategory read from a tool name that starts with
    ["generate_"]. *)
Definition parse_name (name : string) : jsval * string :=
  let parts := Js.split "_"%char (Js.replace "generate_" "" name) in
  let category := JStr <$> head parts in
  let subcategory := Js.join "_" (drop 1 parts) in
  let category := if is_string category "image" then Some (JStr "imagegen") else category in
  let category := if is_string category "video" then Some (JStr "videogen") else category in
  let category := if is_string category "audio" then Some (JStr "audiogen") else category in
  (category, subcategory).

(** [v && typeof v === 'object']. *)
Definition is_object (v : jsval) : bool :=
  match v with
  | Some x => Js.truthy x && Js.typeof_object x
  | None => false
  end.

(** A nested ["parameters"] object replaces the object that holds it. *)
Definition unwrap (o : gmap string value) : gmap string value :=
  match o !! "parameters" with
  | Some p => if is_object (Some p) then Js.own p else o
  | None => o
  end.

(** The parameters and the subcategory after the ["model"] override and the
    removal of the two internal category fields. *)
Definition clean (toolArgs : value) (subcategory : string)
  : string * gmap string value :=
  let parameters := unwrap (Js.own toolArgs) in
  let '(subcategory, parameters) :=
    match parameters !! "model" with
    | Some (JStr m) =>
        if Js.truthy (JStr m) && negb (Js.truthy (JStr subcategory))
        then (m, delete "model" parameters)
        else (subcategory, parameters)
    | _ => (subcategory, parameters)
    end in
  (subcategory, delete "subcategory_genvr" (delete "category_genvr" parameters)).

(** [{category, subcategory, ...flatParams}] as sent to [/generate]. *)
Definition generate_body (category : jsval) (subcategory : string)
    (parameters : gmap string value) : gmap string value :=
  let flatParams := unwrap parameters in
  flatParams ∪
    Js.set_field "subcategory" (Some (JStr subcategory))
      (Js.set_field "category" category ∅).

Definition success (result : value) : tool_result :=
  {| content := [Stringify (Some result)]; isError := false; structuredContent := None |}.

Definition failure (message : string) : tool_result :=
  {| content := [Literal ("Error: " +:+ message)]; isError := true;
     structuredContent := None |}.

(** The [try] block of the handler. *)
Definition call_tool_body (name : string) (args : jsval) : M tool_result :=
  match args with
  | Some toolArgs =>
      if negb (Js.truthy toolArgs) || negb (Js.typeof_object toolArgs) then
        throw "No arguments provided"
      else if Js.startsWith name "generate_" then
        let '(category, subcategory) := parse_name name in
        let '(subcategory, parameters) := clean toolArgs subcategory in
        let requestBody := generate_body category subcategory parameters in
        generateData ← callGenVRAPI "/generate" requestBody;
        let taskId := Js.get_opt (Js.get_opt (Some generateData) "data") "id" in
        match taskId with
        | Some id =>
            if Js.truthy id then
              result ← waitForCompletion id category (Some (JStr subcategory)) 60;
              mret (success result)
            else throw "No task ID returned from generate endpoint"
        | None => throw "No task ID returned from generate endpoint"
        end
      else throw ("Unknown tool: " +:+ name)
  | None => throw "No arguments provided"
  end.

(** The [CallToolRequestSchema] handler. *)
Definition call_tool (name : string) (args : jsval) : M tool_result :=
  try_catch (call_tool_body name args) (λ message, mret (failure message)).

End Config.

End Standalone.

(** ** The Cloudflare Worker *)

Module Worker.

(** The request [makeGenVRRequest] sends: the body with [uid: userId]
    added, and the access token as bearer. *)
Definition api_request (endpoint : string) (body : gmap string value)
    (userId accessToken : jsval) : request :=
  {| endpoint := endpoint;
     body := Js.set_field "uid" userId body;
     bearer := accessToken |}.

(** [makeGenVRRequest(endpoint, body, userId, accessToken)], for the object
    bodies it is called with: every failure is logged and turned into
    [null]. *)
Definition makeGenVRRequest (endpoint : string) (body : gmap string value)
    (userId accessToken : jsval) : M value :=
  try_catch
    (response ← fetch (api_request endpoint body userId accessToken);
     if negb (ok response) then
       throw ("HTTP error! status: " +:+ Js.nat_to_string (status response))
     else
       lift (json response))
    (λ _, mret JNull).

(** The body of the loop of [waitForCompletion], from iteration [i] with
    [remaining = maxAttempts - i] iterations left. *)
Fixpoint waitForCompletion_loop (taskId : value) (category subcategory : jsval)
    (userId accessToken : jsval) (remaining i : nat) : M value :=
  match remaining with
  | O => throw "Task timed out"
  | S remaining' =>
      statusData ← makeGenVRRequest "/status"
                     (task_body taskId category subcategory) userId accessToken;
      if negb (Js.truthy statusData) then throw "Failed to get status"
      else
        let status := task_status statusData in
        if is_string status "completed" then
          makeGenVRRequest "/response"
            (task_body taskId category subcategory) userId accessToken
        else if is_string status "failed" then
          throw (task_failed (task_error statusData))
        else
          sleep (delay i);;
          waitForCompletion_loop taskId category subcategory userId accessToken
            remaining' (S i)
  end.

Definition waitForCompletion (taskId : value) (category subcategory : jsval)
    (userId accessToken : jsval) (maxAttempts : nat) : M value :=
  waitForCompletion_loop taskId category subcategory userId accessToken maxAttempts 0.

(** *** Tool registration *)

(** An entry of [curatedModels.curatedModels]. *)
Record curated_model : Type := CuratedModel {
  category : string;
  subcategory : string;
}.

Definition curatedModelKeys (curatedModels : list curated_model) : list string :=
  map (λ m, category m +:+ "/" +:+ subcategory m) curatedModels.

(** The Zod validators the conversion builds. *)
Inductive zod_kind : Type := ZString | ZNumber | ZBoolean | ZArrayAny | ZAny.

Record zod_field : Type := ZodField {
  kind : zod_kind;
  describe : jsval;
}.

(** What [this.server.tool(toolName, inputSchema, handler)] receives; the
    handler is [call_tool bound_category bound_subcategory]. *)
Record registered_tool : Type := RegisteredTool {
  toolName : string;
  inputSchema : gmap string zod_field;
  bound_category : jsval;
  bound_subcategory : jsval;
}.

(** One iteration of the loop over [Object.entries(schema.properties)]. *)
Definition convert_entry (inputSchema : gmap string zod_field)
    (entry : string * value) : outcome (gmap string zod_field) :=
  let '(key, property) := entry in
  match member property "type" with
  | Throw e => Throw e
  | Ret ty =>
      let description := Js.or_else (Js.get property "description") (Some (JStr "")) in
      let kind :=
        if is_string ty "string" then ZString
        else if is_string ty "number" then ZNumber
        else if is_string ty "boolean" then ZBoolean
        else if is_string ty "array" then ZArrayAny
        else ZAny in
      Ret (<[key := {| kind := kind; describe := description |}]> inputSchema)
  end.

Definition fallback_schema : gmap string zod_field :=
  <["accessToken" := {| kind := ZString; describe := Some (JStr "GenVR Access Token") |}]>
  (<["userId" := {| kind := ZString; describe := Some (JStr "GenVR User ID") |}]>
  (<["prompt" := {| kind := ZString;
                    describe := Some (JStr "The input prompt or description for the AI model") |}]>
   ∅)).

(** The [inputSchema] built from [schemasCache[schemaKey]]. *)
Definition convert (schema : jsval) : outcome (gmap string zod_field) :=
  match Js.and_then schema (λ s, Js.get s "properties") with
  | Some props =>
      if Js.truthy props then for_each convert_entry ∅ (Js.entries props)
      else Ret fallback_schema
  | None => Ret fallback_schema
  end.

(** One iteration of the registration loop of [init]. *)
Definition register (schemasCache : gmap string value) (modelKey : string)
  : outcome registered_tool :=
  let parts := Js.split "/"%char modelKey in
  let category := JStr <$> parts !! 0%nat in
  let subcategory := JStr <$> parts !! 1%nat in
  let toolName := "generate_" +:+ Js.template category +:+ "_" +:+ Js.template subcategory in
  let schemaKey := Js.template category +:+ "/" +:+ Js.template subcategory in
  match convert (schemasCache !! schemaKey) with
  | Throw e => Throw e
  | Ret inputSchema =>
      Ret {| toolName := toolName; inputSchema := inputSchema;
             bound_category := category; bound_subcategory := subcategory |}
  end.

(** The GenVR tools registered by [init], in registration order (the two
    arithmetic demonstration tools registered before them are left out). *)
Definition init (curatedModels : list curated_model)
    (schemasCache : gmap string value) : outcome (list registered_tool) :=
  for_each
    (λ tools modelKey,
       match register schemasCache modelKey with
       | Ret t => Ret (tools ++ [t])
       | Throw e => Throw e
       end)
    [] (curatedModelKeys curatedModels).

(** *** The tool handler *)

Definition success (result : value) : tool_result :=
  {| content := [Stringify (Some result)]; isError := false;
     structuredContent := Some result |}.

Definition failure (message : string) : tool_result :=
  {| content := [Literal ("Tool execution failed: " +:+ message)]; isError := true;
     structuredContent := None |}.

(** [{category, subcategory, ...args}]. *)
Definition generate_body (category subcategory : jsval) (args : gmap string value)
  : gmap string value :=
  args ∪ Js.set_field "subcategory" subcategory (Js.set_field "category" category ∅).

(** The [try] block of the handler of a registered tool. *)
Definition call_tool_body (category subcategory : jsval) (args : gmap string value)
  : M tool_result :=
  let requestBody := generate_body category subcategory args in
  let userId := args !! "userId" in
  let accessToken := args !! "accessToken" in
  generateData ← makeGenVRRequest "/generate" requestBody userId accessToken;
  let taskId := Js.get_opt (Js.get_opt (Some generateData) "data") "id" in
  match taskId with
  | Some id =>
      if Js.truthy id then
        result ← waitForCompletion id category subcategory userId accessToken 60;
        mret (success result)
      else throw "No task ID returned from generate endpoint"
  | None => throw "No task ID returned from generate endpoint"
  end.

Definition call_tool (category subcategory : jsval) (args : gmap string value)
  : M tool_result :=
  try_catch (call_tool_body category subcategory args) (λ message, mret (failure message)).

End Worker.

(** ** Observations used in the statements *)

(** [c] occurs in [s]. *)
Fixpoint contains (c : ascii) (s : string) : bool :=
  match s with
  | EmptyString => false
  | String c' s' => Ascii.eqb c' c || contains c s'
  end.

(** The short category names the call handler rewrites. *)
Definition short_category (category : string) : bool :=
  String.eqb category "image" || String.eqb category "video"
  || String.eqb category "audio".

(** No property of a raw [properties] object is [null]. *)
Definition no_null_property (props : value) : Prop :=
  ∀ key, Js.get props key ≠ Some JNull.

(** The Worker's schema cache holds no [null] property. *)
Definition worker_cache_ok (schemasCache : gmap string value) : Prop :=
  ∀ key schema props,
    schemasCache !! key = Some schema →
    Js.get schema "properties" = Some props →
    no_null_property props.

(** [schema.required] is absent, [null], an array or a string. *)
Definition required_ok (schema : value) : Prop :=
  match Js.get schema "required" with
  | None | Some JNull | Some (JArr _) | Some (JStr _) => True
  | Some _ => False
  end.

(** A cached schema of the stdio server holds no [null] property and no
    [required] member without an [includes] method. *)
Definition standalone_schema_ok (cachedSchema : jsval) : Prop :=
  ∀ schema props,
    Standalone.cached_properties cachedSchema = Some (schema, props) →
    no_null_property props ∧ required_ok schema.

Definition standalone_cache_ok (schemasCache : gmap string value) : Prop :=
  ∀ key, standalone_schema_ok (schemasCache !! key).

(** *** What a status check observes *)

(** The JSON payload of a response that is [ok] and parses. *)
Definition payload (r : http_response) : option value :=
  match r with
  | Resolved rep =>
      if ok rep then match json rep with Ret v => Some v | Throw _ => None end
      else None
  | NetworkFailure _ => None
  end.

(** A failure at the transport level: the network failed or the response
    status is outside 200-299. *)
Definition transport_failure (r : http_response) : bool :=
  match r with
  | NetworkFailure _ => true
  | Resolved rep => negb (ok rep)
  end.

(** The status data a check reads from the response: the stdio server reads
    the status of any payload but [null], the Worker of any truthy
    payload. *)
Definition status_data (usable : value → bool) (r : http_response) : option value :=
  match payload r with
  | Some v => if usable v then Some v else None
  | None => None
  end.

Definition not_null (v : value) : bool :=
  match v with JNull => false | _ => true end.

(** The status is neither ["completed"] nor ["failed"]. *)
Definition non_terminal (statusData : value) : bool :=
  negb (is_string (task_status statusData) "completed")
  && negb (is_string (task_status statusData) "failed").

(** The status checks answered by calls [first], ..., [first + k - 1] all
    observe a non-terminal status. *)
Definition pending_checks (usable : value → bool) (env : remote) (first k : nat) : Prop :=
  ∀ j, (j < k)%nat →
    ∃ statusData, status_data usable (env (first + j)%nat) = Some statusData ∧
                  non_terminal statusData = true.

(** The log of [n] status checks that each observe a non-terminal status,
    the first of them being attempt [i]. *)
Fixpoint polling (status_request : request) (i n : nat) : list event :=
  match n with
  | O => []
  | S n' => Fetch status_request :: Sleep (delay i) :: polling status_request (S i) n'
  end.

(** The delays slept, in order. *)
Fixpoint sleeps (l : list event) : list Q :=
  match l with
  | [] => []
  | Sleep ms :: l' => ms :: sleeps l'
  | Fetch _ :: l' => sleeps l'
  end.

(** The requests sent, in order. *)
Fixpoint requests (l : list event) : list request :=
  match l with
  | [] => []
  | Fetch r :: l' => r :: requests l'
  | Sleep _ :: l' => requests l'
  end.

Definition total_sleep (l : list event) : Q :=
  foldr Qplus 0%Q (sleeps l).

(** The world after [n] more calls that logged [events]. *)
Definition advance (w : world) (n : nat) (events : list event) : world :=
  {| calls := n + calls w; log := log w ++ events |}.

Definition initial : world := {| calls := 0; log := [] |}.

(** What [callGenVRAPI] makes of a response. *)
Definition standalone_outcome (r : http_response) : outcome value :=
  match r with
  | NetworkFailure e => Throw e
  | Resolved rep => if ok rep then json rep else Throw (Standalone.api_error rep)
  end.

(** What [makeGenVRRequest] makes of a response. *)
Definition worker_outcome (r : http_response) : value :=
  match payload r with
  | Some v => v
  | None => JNull
  end.

(** The status and fetch-result requests of the two pollers. *)
Definition standalone_status_request (uid token : string) (taskId : value)
    (category subcategory : jsval) : request :=
  Standalone.api_request uid token "/status" (task_body taskId category subcategory).

Definition standalone_result_request (uid token : string) (taskId : value)
    (category subcategory : jsval) : request :=
  Standalone.api_request uid token "/response" (task_body taskId category subcategory).

Definition worker_status_request (taskId : value) (category subcategory : jsval)
    (userId accessToken : jsval) : request :=
  Worker.api_request "/status" (task_body taskId category subcategory) userId accessToken.

Definition worker_result_request (taskId : value) (category subcategory : jsval)
    (userId accessToken : jsval) : request :=
  Worker.api_request "/response" (task_body taskId category subcategory) userId accessToken.

(** The message the stdio server throws for a transport failure. *)
Definition transport_error (r : http_response) : string :=
  match r with
  | NetworkFailure e => e
  | Resolved rep => Standalone.api_error rep
  end.

(** *** Sample data *)

(** A raw [properties] object with a visible field, a hidden field and an
    internal field. *)
Definition sample_properties : value :=
  JObj {[ "prompt" := JObj {[ "type" := JStr "string" ]};
          "seed" := JObj {[ "type" := JStr "number"; "display" := JStr "hidden" ]};
          "uid" := JObj {[ "type" := JStr "string" ]} ]}.

(** The sample as the stdio server's cache stores it. *)
Definition sample_cached_schema : value :=
  JObj {[ "schema" := JObj {[ "properties" := sample_properties;
                              "required" := JArr [JStr "prompt"] ]} ]}.

(** The sample as the Worker's cache stores it. *)
Definition sample_worker_schema : value :=
  JObj {[ "properties" := sample_properties ]}.

(** Responses of the remote API; the raw text of a response that is [ok] is
    never read and is left empty. *)
Definition json_reply (v : value) : http_response :=
  Resolved {| status := 200; statusText := "OK"; text := ""; json := Ret v |}.

Definition pending_reply : http_response :=
  json_reply (JObj {[ "status" := JStr "pending" ]}).

Definition completed_reply : http_response :=
  json_reply (JObj {[ "data" := JObj {[ "status" := JStr "completed" ]} ]}).

Definition failed_reply : http_response :=
  json_reply (JObj {[ "status" := JStr "failed"; "error" := JStr "out of credits" ]}).

Definition result_reply : http_response :=
  json_reply (JObj {[ "data" := JObj {[ "output" := JStr "https://cdn.example/cat.png" ]} ]}).

Definition submitted_reply : http_response :=
  json_reply (JObj {[ "data" := JObj {[ "id" := JStr "task-1" ]} ]}).

Definition error_reply : http_response :=
  Resolved {| status := 500; statusText := "Internal Server Error"; text := "boom";
              json := Throw "Unexpected token b in JSON at position 0" |}.

(** Two pending checks, then completion, then the result. *)
Definition env_completed : remote :=
  λ n, match n with
       | 0 | 1 => pending_reply
       | 2 => completed_reply
       | _ => result_reply
       end.

Definition env_pending : remote := λ _, pending_reply.


(** One pending check, then a server error. *)
Definition env_broken : remote :=
  λ n, match n with
       | 0 => pending_reply
       | _ => error_reply
       end.

(** One pending check, completion, then a server error on the result. *)
Definition env_broken_result : remote :=
  λ n, match n with
       | 0 => pending_reply
       | 1 => completed_reply
       | _ => error_reply
       end.

(** A job that is accepted, completes at the first check and has a
    result. *)
Definition env_job : remote :=
  λ n, match n with
       | 0 => submitted_reply
       | 1 => completed_reply
       | _ => result_reply
       end.

(** A job that is accepted and stays pending. *)
Definition env_stuck : remote :=
  λ n, match n with
       | 0 => submitted_reply
       | _ => pending_reply
       end.

(** A job that is accepted and fails. *)
Definition env_rejected : remote :=
  λ n, match n with
       | 0 => submitted_reply
       | _ => failed_reply
       end.

(** Arguments wrapped twice in ["parameters"], with an internal field. *)
Definition doubly_nested_args : value :=
  JObj {[ "parameters" :=
            JObj {[ "parameters" :=
                      JObj {[ "category_genvr" := JStr "x";
                              "prompt" := JStr "a cat" ]} ]} ]}.

(** The same arguments wrapped once. *)
Definition nested_args : value :=
  JObj {[ "parameters" :=
            JObj {[ "category_genvr" := JStr "x"; "prompt" := JStr "a cat" ]} ]}.

(** Arguments of a Worker tool call. *)
Definition worker_args : gmap string value :=
  {[ "prompt" := JStr "a cat"; "userId" := JStr "user"; "accessToken" := JStr "secret" ]}.

(** ** The model catalog and the tool list of the stdio server *)

Module Catalog.

(** The request of [fetchAvailableModels]: a [GET] of an absolute URL, which
    has no body and no [Authorization] header; it is recorded with an empty
    body and no bearer value. *)
Definition models_request : request :=
  {| endpoint := "https://api.genvrresearch.com/api/get-models";
     body := ∅;
     bearer := None |}.

(** The models pushed for one entry [[category, subcategories]] of
    [data.data].  The record keeps [String(subcategory)], which is all that
    [generateTools] reads of a subcategory. *)
Definition models_of_entry (entry : string * value) : list Standalone.model :=
  let '(category, subcategories) := entry in
  match subcategories with
  | JArr items =>
      (λ subcategory,
         {| Standalone.category := category;
            Standalone.subcategory := Js.to_string subcategory;
            Standalone.name := category +:+ "/" +:+ Js.to_string subcategory;
            Standalone.description := None |}) <$> items
  | _ => []
  end.

(** The loop over [Object.entries(data.data)]. *)
Definition parse_models (data : value) : list Standalone.model :=
  Js.entries data ≫= models_of_entry.

(** [fetchAvailableModels()]. *)
Definition fetchAvailableModels : M (list Standalone.model) :=
  try_catch
    (response ← fetch models_request;
     if negb (ok response) then mret []
     else
       data ← lift (json response);
       success ← lift (member data "success");
       if negb (Js.truthy_opt success) then mret []
       else
         match Js.get data "data" with
         | Some models => if Js.truthy models then mret (parse_models models) else mret []
         | None => mret []
         end)
    (λ _, mret []).

(** The two module-level caches. *)
Record server : Type := Server {
  availableModels : list Standalone.model;
  toolsCache : list Standalone.tool;
}.

(** [generateTools()] with its lazy load of [availableModels]; the new
    value of [availableModels] is returned next to the tools, also when the
    translation of a schema throws. *)
Definition generateTools (schemasCache : gmap string value)
    (availableModels : list Standalone.model)
  : M (list Standalone.model * outcome (list Standalone.tool)) :=
  models ← (if (length availableModels =? 0)%nat then fetchAvailableModels
            else mret availableModels);
  mret (models, Standalone.generateTools models schemasCache).

(** The [ListToolsRequestSchema] handler: the state after the call and the
    tools it returns (or the error it rejects with). *)
Definition list_tools (schemasCache : gmap string value) (st : server)
  : M (server * outcome (list Standalone.tool)) :=
  if (length (toolsCache st) =? 0)%nat then
    generated ← generateTools schemasCache (availableModels st);
    match generated.2 with
    | Ret tools =>
        mret ({| availableModels := generated.1; toolsCache := tools |}, Ret tools)
    | Throw e =>
        mret ({| availableModels := generated.1; toolsCache := toolsCache st |}, Throw e)
    end
  else mret (st, Ret (toolsCache st)).

End Catalog.

(** ** Further observations *)

(** What the call handler of the stdio server makes of a tool name and its
    arguments: category, subcategory and the body for [/generate]. *)
Definition route (name : string) (toolArgs : value) : jsval * string * gmap string value :=
  let '(category, subcategory) := Standalone.parse_name name in
  let '(subcategory, parameters) := Standalone.clean toolArgs subcategory in
  (category, subcategory, Standalone.generate_body category subcategory parameters).

(** The events that may follow the pending checks of a poll: nothing
    (the attempts are used up), a last status request (it failed or
    observed ["failed"]), or a status request and the fetch-result
    request. *)
Definition poll_tail (status_request result_request : request)
    (tail : list event) : Prop :=
  tail = [] ∨ tail = [Fetch status_request]
  ∨ tail = [Fetch status_request; Fetch result_request].

(** The sum of the delays of attempts [0], ..., [k-1]. *)
Definition backoff_total (k : nat) : Q :=
  foldr Qplus 0%Q (delay <$> seq 0 k).

(** The task id read from the response to [/generate]:
    [generateData?.data?.id]. *)
Definition task_id (generateData : value) : jsval :=
  Js.get_opt (Js.get_opt (Some generateData) "data") "id".

(** A response to [get-models] that lists two categories. *)
Definition models_reply : http_response :=
  json_reply (JObj {[ "success" := JBool true;
                      "data" := JObj {[ "imagegen" := JArr [JStr "flux_dev"; JStr "sdxl"];
                                        "audiogen" := JArr [JStr "bark"] ]} ]}).

(** A response to [/generate] whose task id is the empty string. *)
Definition env_empty_id : remote :=
  λ _, json_reply (JObj {[ "data" := JObj {[ "id" := JStr "" ]} ]}).

(** One pending check, then a status response whose JSON is [null]. *)
Definition env_null_status : remote :=
  λ n, match n with
       | 0 => pending_reply
       | _ => json_reply JNull
       end.



Definition flux_dev : Standalone.model :=
  {| Standalone.category := "imagegen"; Standalone.subcategory := "flux_dev";
     Standalone.name := "imagegen/flux_dev"; Standalone.description := None |}.

Definition bark : Standalone.model :=
  {| Standalone.category := "audiogen"; Standalone.subcategory := "bark";
     Standalone.name := "audiogen/bark"; Standalone.description := None |}.

(** * Properties *)

(** ** Strings *)

Lemma append_cons (c : ascii) (s t : string) :
  String c s +:+ t = String c (s +:+ t).
Proof. reflexivity. Qed.

Lemma append_empty_l (s : string) : "" +:+ s = s.
Proof. reflexivity. Qed.

Lemma replace_prefix (rest : string) :
  Js.replace "generate_" "" ("generate_" +:+ rest) = rest.
Proof. destruct rest; reflexivity. Qed.

Lemma startsWith_generate (rest : string) :
  Js.startsWith ("generate_" +:+ rest) "generate_" = true.
Proof. destruct rest; reflexivity. Qed.

Lemma split_nonempty (sep : ascii) (s : string) : Js.split sep s ≠ [].
Proof.
  destruct s as [|c s]; simpl; [done|].
  destruct (Ascii.eqb c sep); [done|].
  destruct (Js.split sep s); done.
Qed.

(** A string without the separator is one part. *)
Lemma split_absent (sep : ascii) (s : string) :
  contains sep s = false → Js.split sep s = [s].
Proof.
  induction s as [|c s IH]; simpl; [done|].
  intros [Hc Hs]%orb_false_iff. rewrite Hc, (IH Hs). done.
Qed.

(** The first separator ends the first part. *)
Lemma split_first (sep : ascii) (a b : string) :
  contains sep a = false →
  Js.split sep (a +:+ String sep b) = a :: Js.split sep b.
Proof.
  induction a as [|c a IH]; intros Ha.
  - rewrite append_empty_l. simpl. rewrite Ascii.eqb_refl. done.
  - simpl in Ha. apply orb_false_iff in Ha as [Hc Ha].
    rewrite append_cons. simpl. rewrite Hc, (IH Ha). done.
Qed.

(** Joining the parts with the separator gives the string back. *)
Lemma join_split (sep : ascii) (s : string) :
  Js.join (String sep "") (Js.split sep s) = s.
Proof.
  unfold Js.join. induction s as [|c s IH]; simpl; [done|].
  destruct (Ascii.eqb_spec c sep) as [->|Hne].
  - pose proof (split_nonempty sep s) as Hs.
    destruct (Js.split sep s) as [|h t] eqn:E; [done|].
    change (String.concat (String sep "") ("" :: h :: t))
      with ("" +:+ (String sep "" +:+ String.concat (String sep "") (h :: t))).
    rewrite IH. done.
  - pose proof (split_nonempty sep s) as Hs.
    destruct (Js.split sep s) as [|h t] eqn:E; [done|].
    destruct t as [|h' t].
    + simpl in *. by rewrite IH.
    + change (String.concat (String sep "") (String c h :: h' :: t))
        with (String c h +:+ (String sep "" +:+ String.concat (String sep "") (h' :: t))).
      change (String.concat (String sep "") (h :: h' :: t))
        with (h +:+ (String sep "" +:+ String.concat (String sep "") (h' :: t))) in IH.
      rewrite append_cons, IH. done.
Qed.

(** ** Loops that push one element per iteration *)

Lemma for_each_push {A B : Type} (g : A → outcome B) (l : list A) (acc r : list B) :
  for_each (λ ts a, match g a with
                    | Ret t => Ret (ts ++ [t])
                    | Throw e => Throw e
                    end) acc l = Ret r →
  ∃ bs, r = acc ++ bs ∧ Forall2 (λ a b, g a = Ret b) l bs.
Proof.
  revert acc. induction l as [|a l IH]; simpl; intros acc H.
  - exists []. split; [|constructor]. rewrite app_nil_r. congruence.
  - destruct (g a) as [b|e] eqn:Hg; [|done].
    destruct (IH _ H) as (bs & -> & Hbs).
    exists (b :: bs). split; [by rewrite <- app_assoc|]. by constructor.
Qed.

Lemma for_each_push_total {A B : Type} (g : A → outcome B) (l : list A) (acc : list B) :
  Forall (λ a, ∃ b, g a = Ret b) l →
  ∃ r, for_each (λ ts a, match g a with
                         | Ret t => Ret (ts ++ [t])
                         | Throw e => Throw e
                         end) acc l = Ret r.
Proof.
  intros H. revert acc. induction H as [|a l [b Hb] _ IH]; simpl; intros acc.
  - eauto.
  - rewrite Hb. apply IH.
Qed.

Lemma for_each_total {S A : Type} (f : S → A → outcome S) (l : list A) (s : S) :
  (∀ s a, a ∈ l → ∃ s', f s a = Ret s') →
  ∃ s', for_each f s l = Ret s'.
Proof.
  revert s. induction l as [|a l IH]; simpl; intros s H; [eauto|].
  destruct (H s a) as [s' Hs']; [left|]. rewrite Hs'.
  apply IH. intros s0 a0 Ha0. apply H. by right.
Qed.

(** ** Tool names *)

Lemma entries_get (props : value) (key : string) (prop : value) :
  (key, prop) ∈ Js.entries props ↔ Js.get props key = Some prop.
Proof. unfold Js.entries, Js.get. apply elem_of_map_to_list. Qed.

Lemma parse_name_generate (category subcategory : string) :
  contains "_" category = false →
  short_category category = false →
  Standalone.parse_name ("generate_" +:+ category +:+ "_" +:+ subcategory)
  = (Some (JStr category), subcategory).
Proof.
  intros Hc Hs. unfold Standalone.parse_name.
  rewrite replace_prefix.
  change ("_" +:+ subcategory) with (String "_" subcategory).
  rewrite (split_first _ _ _ Hc). simpl drop. rewrite drop_0.
  rewrite (join_split "_" subcategory).
  unfold short_category in Hs.
  apply orb_false_iff in Hs as [[Hi Hv]%orb_false_iff Ha].
  cbn [head fmap option_fmap option_map is_string].
  rewrite Hi. cbn [is_string]. rewrite Hv. cbn [is_string]. rewrite Ha. done.
Qed.

Lemma worker_convert_total (schemasCache : gmap string value) (key : string) :
  worker_cache_ok schemasCache →
  ∃ inputSchema, Worker.convert (schemasCache !! key) = Ret inputSchema.
Proof.
  intros Hok. unfold Worker.convert, Js.and_then.
  destruct (schemasCache !! key) as [schema|] eqn:Hk; [|eauto].
  destruct (Js.truthy schema) eqn:Ht; [|rewrite Ht; eauto].
  destruct (Js.get schema "properties") as [props|] eqn:Hp; [|eauto].
  destruct (Js.truthy props); [|eauto].
  apply for_each_total. intros acc [k prop] Hin%entries_get.
  pose proof (Hok _ _ _ Hk Hp k) as Hnn.
  unfold Worker.convert_entry.
  destruct prop; try (simpl; eauto). congruence.
Qed.

Lemma worker_split_key (category subcategory : string) :
  contains "/" category = false →
  contains "/" subcategory = false →
  Js.split "/" (category +:+ "/" +:+ subcategory) = [category; subcategory].
Proof.
  intros Hc Hs. change ("/" +:+ subcategory) with (String "/" subcategory).
  by rewrite (split_first _ _ _ Hc), (split_absent _ _ Hs).
Qed.

Lemma standalone_translate_entry_total (schema : value)
    (acc : gmap string value * list string) (key : string) (prop : value) :
  prop ≠ JNull → required_ok schema →
  ∃ acc', Standalone.translate_entry schema acc (key, prop) = Ret acc'.
Proof.
  intros Hnn Hreq. unfold Standalone.translate_entry. destruct acc as [ps rs].
  assert (∃ d, member prop "display" = Ret d) as [d ->]
    by (destruct prop; simpl; eauto; congruence).
  destruct (is_string d "hidden"); [eauto|].
  destruct (Standalone.internal_field key); [eauto|].
  unfold required_ok in Hreq. unfold Standalone.required_includes.
  destruct (Js.get schema "required") as [[]|]; try done; simpl; eauto.
  - destruct (Js.includes _ _); eauto.
  - destruct (existsb _ _); eauto.
Qed.

Lemma standalone_translate_total (cachedSchema : jsval) :
  standalone_schema_ok cachedSchema →
  ∃ contract, Standalone.translate cachedSchema = Ret contract.
Proof.
  intros Hok. unfold Standalone.translate.
  destruct (Standalone.cached_properties cachedSchema) as [[schema props]|] eqn:Hc;
    [|eauto].
  destruct (Hok _ _ Hc) as [Hnn Hreq].
  destruct (for_each_total (Standalone.translate_entry schema) (Js.entries props) (∅, []))
    as [[ps rs] ->]; [|eauto].
  intros acc [k prop] Hin%entries_get.
  apply standalone_translate_entry_total; [|done].
  intros ->. by apply (Hnn k).
Qed.

(** C1 (amended).  Both registry builders return a registry when the schema
    cache is well formed, and whenever they return one it has one tool per
    catalog entry, in catalog order.  For an entry whose category and
    subcategory contain no ["/"] the tool is named
    [generate_<category>_<subcategory>]; when moreover the category
    contains no ["_"] and is not one of the short forms [image], [video],
    [audio], the call handler's parse of that name gives the entry's
    category and subcategory back. *)
Theorem tool_name_round_trip :
  (∀ curatedModels schemasCache,
     worker_cache_ok schemasCache →
     ∃ tools, Worker.init curatedModels schemasCache = Ret tools) ∧
  (∀ curatedModels schemasCache tools,
     Worker.init curatedModels schemasCache = Ret tools →
     length tools = length curatedModels ∧
     ∀ (i : nat) m,
       curatedModels !! i = Some m →
       contains "/" (Worker.category m) = false →
       contains "/" (Worker.subcategory m) = false →
       ∃ t, tools !! i = Some t ∧
         Worker.toolName t
           = "generate_" +:+ Worker.category m +:+ "_" +:+ Worker.subcategory m ∧
         Js.startsWith (Worker.toolName t) "generate_" = true ∧
         (contains "_" (Worker.category m) = false →
          short_category (Worker.category m) = false →
          Standalone.parse_name (Worker.toolName t)
            = (Some (JStr (Worker.category m)), Worker.subcategory m))) ∧
  (∀ availableModels schemasCache,
     standalone_cache_ok schemasCache →
     ∃ tools, Standalone.generateTools availableModels schemasCache = Ret tools) ∧
  (∀ availableModels schemasCache tools,
     Standalone.generateTools availableModels schemasCache = Ret tools →
     length tools = length availableModels ∧
     ∀ (i : nat) m,
       availableModels !! i = Some m →
       ∃ t, tools !! i = Some t ∧
         Standalone.tool_name t
           = "generate_" +:+ Standalone.category m +:+ "_" +:+ Standalone.subcategory m ∧
         Js.startsWith (Standalone.tool_name t) "generate_" = true ∧
         (contains "_" (Standalone.category m) = false →
          short_category (Standalone.category m) = false →
          Standalone.parse_name (Standalone.tool_name t)
            = (Some (JStr (Standalone.category m)), Standalone.subcategory m))).
Proof.
  split; [|split; [|split]].
  - intros models cache Hok. unfold Worker.init.
    apply for_each_push_total, Forall_forall. intros key _.
    unfold Worker.register.
    match goal with |- context [Worker.convert (cache !! ?k)] =>
      destruct (worker_convert_total cache k Hok) as [sch ->] end.
    eauto.
  - intros models cache tools Hinit. unfold Worker.init in Hinit.
    apply for_each_push in Hinit as (bs & -> & Hbs). simpl.
    unfold Worker.curatedModelKeys in Hbs. apply Forall2_fmap_l in Hbs.
    split; [symmetry; by eapply Forall2_length|].
    intros i m Hm Hc Hs.
    destruct (Forall2_lookup_l _ _ _ _ _ Hbs Hm) as (t & Ht & Hreg).
    exists t. split; [done|].
    unfold compose in Hreg. cbv beta in Hreg.
    unfold Worker.register in Hreg. rewrite (worker_split_key _ _ Hc Hs) in Hreg.
    simpl in Hreg.
    destruct (Worker.convert _); [|done]. injection Hreg as <-. simpl.
    split; [done|]. split; [apply startsWith_generate|].
    apply parse_name_generate.
  - intros models cache Hok. unfold Standalone.generateTools.
    apply for_each_push_total, Forall_forall. intros m _.
    unfold Standalone.make_tool.
    match goal with |- context [Standalone.translate (cache !! ?k)] =>
      destruct (standalone_translate_total (cache !! k) (Hok k)) as [sch ->] end.
    eauto.
  - intros models cache tools Hgen. unfold Standalone.generateTools in Hgen.
    apply for_each_push in Hgen as (bs & -> & Hbs). simpl.
    split; [symmetry; by eapply Forall2_length|].
    intros i m Hm.
    destruct (Forall2_lookup_l _ _ _ _ _ Hbs Hm) as (t & Ht & Hmk).
    exists t. split; [done|].
    unfold Standalone.make_tool in Hmk.
    destruct (Standalone.translate _); [|done]. injection Hmk as <-. simpl.
    unfold Standalone.toolName.
    split; [done|]. split; [apply startsWith_generate|].
    apply parse_name_generate.
Qed.

(** C1, instance: the catalog entry [imagegen/flux_dev] is registered as
    [generate_imagegen_flux_dev], which parses back to the entry. *)
Lemma tool_name_round_trip_witness :
  ∃ t, Worker.init [Worker.CuratedModel "imagegen" "flux_dev"] ∅ = Ret [t] ∧
       Worker.toolName t = "generate_imagegen_flux_dev" ∧
       Standalone.parse_name (Worker.toolName t) = (Some (JStr "imagegen"), "flux_dev").
Proof.
  destruct tool_name_round_trip as (Htotal & Hnames & _).
  destruct (Htotal [Worker.CuratedModel "imagegen" "flux_dev"] ∅) as [tools Htools].
  { intros key schema props Hkey. by rewrite lookup_empty in Hkey. }
  destruct (Hnames _ _ _ Htools) as [Hlen Hentry].
  destruct (Hentry 0%nat (Worker.CuratedModel "imagegen" "flux_dev") eq_refl eq_refl eq_refl)
    as (t & Ht & Hname & _ & Hparse).
  exists t. destruct tools as [|t' [|]]; try discriminate Hlen.
  injection Ht as ->.
  split; [exact Htools|]. split; [exact Hname|].
  exact (Hparse eq_refl eq_refl).
Defined.

(** C1 as stated fails on three kinds of catalog entries: a category that
    is one of the short forms, a category with an underscore, and (for the
    Worker's builder) a subcategory with a slash. *)
Lemma tool_name_round_trip_fails :
  (∃ t, Worker.init [Worker.CuratedModel "image" "flux"] ∅ = Ret [t] ∧
        Worker.toolName t = "generate_image_flux" ∧
        Standalone.parse_name (Worker.toolName t) = (Some (JStr "imagegen"), "flux") ∧
        Standalone.parse_name (Worker.toolName t) ≠ (Some (JStr "image"), "flux")) ∧
  (∃ t, Worker.init [Worker.CuratedModel "three_d" "mesh"] ∅ = Ret [t] ∧
        Worker.toolName t = "generate_three_d_mesh" ∧
        Standalone.parse_name (Worker.toolName t) = (Some (JStr "three"), "d_mesh") ∧
        Standalone.parse_name (Worker.toolName t) ≠ (Some (JStr "three_d"), "mesh")) ∧
  (∃ t, Worker.init [Worker.CuratedModel "imagegen" "v1/fast"] ∅ = Ret [t] ∧
        Worker.toolName t = "generate_imagegen_v1" ∧
        Worker.toolName t ≠ "generate_imagegen_v1/fast").
Proof.
  split; [|split]; eexists; (split; [reflexivity|]); repeat split; try reflexivity;
    simpl; discriminate.
Qed.

(** ** Schema translation *)

Lemma member_not_null (prop : value) (k : string) :
  prop ≠ JNull → member prop k = Ret (Js.get prop k).
Proof. destruct prop; done. Qed.

Lemma member_ret (prop : value) (k : string) (v : jsval) :
  member prop k = Ret v → v = Js.get prop k.
Proof. destruct prop; simpl; congruence. Qed.

(** Every property the loop adds is visible and not internal. *)
Lemma translate_entries_visible (schema : value) (l : list (string * value))
    (acc acc' : gmap string value * list string) :
  for_each (Standalone.translate_entry schema) acc l = Ret acc' →
  ∀ key, is_Some (acc'.1 !! key) →
    is_Some (acc.1 !! key) ∨
    (Standalone.internal_field key = false ∧
     ∃ prop, (key, prop) ∈ l ∧ Standalone.hidden prop = false).
Proof.
  revert acc. induction l as [|[k prop] l IH]; simpl; intros acc H key Hkey.
  - left. congruence.
  - destruct (Standalone.translate_entry schema acc (k, prop)) as [acc1|] eqn:Hstep;
      [|done].
    destruct (IH _ H key Hkey) as [Hacc1|(Hint & p & Hp & Hhid)].
    + unfold Standalone.translate_entry in Hstep. destruct acc as [ps rs].
      destruct (member prop "display") as [d|] eqn:Hd; [|done].
      apply member_ret in Hd. subst d.
      destruct (is_string (Js.get prop "display") "hidden") eqn:Hh;
        [injection Hstep as <-; by left|].
      destruct (Standalone.internal_field k) eqn:Hi;
        [injection Hstep as <-; by left|].
      assert (acc1.1 = <[k := JObj (Standalone.property_definition k prop)]> ps) as Hps.
      { destruct (Standalone.required_includes _ _) as [[]|]; [| |done];
          by injection Hstep as <-. }
      rewrite Hps in Hacc1. simpl.
      destruct (decide (k = key)) as [->|Hne].
      * right. split; [done|]. exists prop. split; [left|done].
      * left. by rewrite lookup_insert_ne in Hacc1.
    + right. split; [done|]. exists p. split; [by right|done].
Qed.

(** C4 (amended).  The stdio server's translation of a cached schema
    returns a contract when the schema is well formed, and every property
    of a contract it returns comes from a raw property that is not hidden
    and whose key is none of [category_genvr], [subcategory_genvr], [uid],
    [token]. *)
Theorem translated_contract_hides_internal (cachedSchema : jsval) :
  (standalone_schema_ok cachedSchema →
   ∃ contract, Standalone.translate cachedSchema = Ret contract) ∧
  (∀ contract,
     Standalone.translate cachedSchema = Ret contract →
     ∀ key, is_Some (Standalone.properties contract !! key) →
       Standalone.internal_field key = false ∧
       ∃ schema props prop,
         Standalone.cached_properties cachedSchema = Some (schema, props) ∧
         Js.get props key = Some prop ∧
         Standalone.hidden prop = false).
Proof.
  split; [apply standalone_translate_total|].
  intros contract Htr key Hkey. unfold Standalone.translate in Htr.
  destruct (Standalone.cached_properties cachedSchema) as [[schema props]|] eqn:Hc.
  - destruct (for_each _ _ _) as [[ps rs]|] eqn:Hloop; [|done].
    injection Htr as <-. simpl in Hkey.
    destruct (translate_entries_visible _ _ _ _ Hloop key Hkey)
      as [Hempty|(Hint & prop & Hin & Hhid)].
    + simpl in Hempty. rewrite lookup_empty in Hempty. by destruct Hempty.
    + split; [done|]. exists schema, props, prop.
      by apply entries_get in Hin.
  - injection Htr as <-. simpl in Hkey. rewrite lookup_empty in Hkey.
    by destruct Hkey.
Qed.

(** The sample schema translates to a contract with the visible field
    only. *)
Example sample_translation :
  ∃ contract,
    Standalone.translate (Some sample_cached_schema) = Ret contract ∧
    Standalone.properties contract
      = {[ "prompt" := JObj {[ "type" := JStr "string";
                               "description" := JStr "Parameter: prompt" ]} ]} ∧
    Standalone.required contract = ["prompt"] ∧
    Standalone.properties contract !! "seed" = None ∧
    Standalone.properties contract !! "uid" = None.
Proof. eexists. split; [vm_compute; reflexivity|]. repeat split; vm_compute; reflexivity. Qed.

(** A decision procedure for [no_null_property]. *)
Lemma no_null_property_check (props : value) :
  forallb (λ entry, match entry.2 with JNull => false | _ => true end)
    (Js.entries props) = true →
  no_null_property props.
Proof.
  intros Hall key Hget. apply entries_get in Hget.
  rewrite forallb_forall in Hall.
  apply list_elem_of_In in Hget. by specialize (Hall _ Hget).
Qed.

Lemma sample_cached_schema_ok : standalone_schema_ok (Some sample_cached_schema).
Proof.
  intros schema props H. vm_compute in H. injection H as <- <-.
  split; [apply no_null_property_check; vm_compute; reflexivity|].
  vm_compute. exact I.
Qed.

(** C4, instance: the contract of the sample schema has neither the hidden
    field [seed] nor the internal field [uid]. *)
Lemma translated_contract_hides_internal_witness :
  ∃ contract,
    Standalone.translate (Some sample_cached_schema) = Ret contract ∧
    Standalone.properties contract !! "seed" = None ∧
    Standalone.properties contract !! "uid" = None.
Proof.
  destruct (translated_contract_hides_internal (Some sample_cached_schema))
    as [Htotal Hvisible].
  destruct (Htotal sample_cached_schema_ok) as [contract Hcontract].
  exists contract. split; [exact Hcontract|]. split.
  - destruct (Standalone.properties contract !! "seed") as [v|] eqn:Hseed; [|reflexivity].
    destruct (Hvisible contract Hcontract "seed") as (_ & schema & props & prop & Hc & Hp & Hh).
    { rewrite Hseed. by eexists. }
    vm_compute in Hc. injection Hc as <- <-.
    vm_compute in Hp. injection Hp as <-. vm_compute in Hh. discriminate Hh.
  - destruct (Standalone.properties contract !! "uid") as [v|] eqn:Huid; [|reflexivity].
    destruct (Hvisible contract Hcontract "uid") as (Hint & _).
    { rewrite Huid. by eexists. }
    vm_compute in Hint. discriminate Hint.
Defined.

(** C4 as stated fails for the Worker: its conversion keeps the hidden field
    and the internal field of the sample schema. *)
Lemma worker_contract_exposes_internal :
  ∃ contract,
    Worker.convert (Some sample_worker_schema) = Ret contract ∧
    Js.get sample_properties "seed"
      = Some (JObj {[ "type" := JStr "number"; "display" := JStr "hidden" ]}) ∧
    contract !! "seed" = Some {| Worker.kind := Worker.ZNumber;
                                 Worker.describe := Some (JStr "") |} ∧
    contract !! "uid" = Some {| Worker.kind := Worker.ZString;
                                Worker.describe := Some (JStr "") |}.
Proof. eexists. split; [vm_compute; reflexivity|]. repeat split; vm_compute; reflexivity. Qed.

(** ** The completion poller *)

Lemma advance_0 (w : world) : advance w 0 [] = w.
Proof. destruct w. unfold advance. simpl. by rewrite app_nil_r. Qed.

Lemma advance_advance (w : world) (n m : nat) (l1 l2 : list event) :
  advance (advance w n l1) m l2 = advance w (n + m) (l1 ++ l2).
Proof.
  unfold advance. simpl. f_equal; [lia|]. by rewrite app_assoc.
Qed.

Lemma pending_checks_S (usable : value → bool) (env : remote) (first k : nat) :
  pending_checks usable env first (S k) →
  (∃ statusData, status_data usable (env first) = Some statusData ∧
                 non_terminal statusData = true) ∧
  pending_checks usable env (S first) k.
Proof.
  intros H. split.
  - destruct (H 0%nat) as (v & Hv & Hn); [lia|]. rewrite Nat.add_0_r in Hv. eauto.
  - intros j Hj. destruct (H (S j)) as (v & Hv & Hn); [lia|].
    replace (first + S j)%nat with (S first + j)%nat in Hv by lia. eauto.
Qed.

Lemma status_data_payload (usable : value → bool) (r : http_response) (v : value) :
  status_data usable r = Some v → payload r = Some v ∧ usable v = true.
Proof.
  unfold status_data. destruct (payload r) as [v'|]; [|done].
  destruct (usable v') eqn:Hu; [|done]. by intros [= <-].
Qed.

Lemma payload_standalone (r : http_response) (v : value) :
  payload r = Some v → standalone_outcome r = Ret v.
Proof.
  destruct r as [e|rep]; simpl; [done|].
  destruct (ok rep); [|done]. destruct (json rep); [|done]. by intros [= <-].
Qed.

Lemma payload_worker (r : http_response) (v : value) :
  payload r = Some v → worker_outcome r = v.
Proof. unfold worker_outcome. by intros ->. Qed.

Lemma transport_failure_payload (r : http_response) :
  transport_failure r = true → payload r = None.
Proof.
  destruct r as [e|rep]; simpl; [done|]. by destruct (ok rep).
Qed.

Lemma non_terminal_status (v : value) :
  non_terminal v = true →
  is_string (task_status v) "completed" = false ∧
  is_string (task_status v) "failed" = false.
Proof.
  unfold non_terminal. intros [H1 H2]%andb_true_iff.
  by apply negb_true_iff in H1, H2.
Qed.


Lemma sleeps_app (l1 l2 : list event) : sleeps (l1 ++ l2) = sleeps l1 ++ sleeps l2.
Proof.
  induction l1 as [|[r|ms] l1 IH]; simpl; [done|done|]. by rewrite IH.
Qed.

Lemma requests_app (l1 l2 : list event) :
  requests (l1 ++ l2) = requests l1 ++ requests l2.
Proof.
  induction l1 as [|[r|ms] l1 IH]; simpl; [done| |done]. by rewrite IH.
Qed.

Lemma sleeps_polling (req : request) (k : nat) : ∀ i,
  sleeps (polling req i k) = delay <$> seq i k.
Proof. induction k as [|k IH]; intros i; simpl; [done|]. by rewrite IH. Qed.

Lemma requests_polling (req : request) (k : nat) : ∀ i,
  requests (polling req i k) = replicate k req.
Proof. induction k as [|k IH]; intros i; simpl; [done|]. by rewrite IH. Qed.

Lemma power_growth (i : nat) : (5 <= (3 # 2) ^ Z.of_nat (4 + i))%Q.
Proof.
  induction i as [|i IH].
  - vm_compute. discriminate.
  - replace (Z.of_nat (4 + S i)) with (Z.of_nat (4 + i) + 1)%Z by lia.
    rewrite Qpower_plus by discriminate.
    change ((3 # 2) ^ 1)%Q with (3 # 2)%Q.
    set (x := ((3 # 2) ^ Z.of_nat (4 + i))%Q) in *. clearbody x.
    assert (x * (3 # 2) == x + x * (1 # 2))%Q as -> by ring.
    assert (0 <= x * (1 # 2))%Q by (apply Qmult_le_0_compat; [lra|discriminate]).
    lra.
Qed.

(** From the fifth attempt on the delay is the cap. *)
Lemma delay_cap (i : nat) : (4 ≤ i)%nat → (delay i == 10000)%Q.
Proof.
  intros Hi. unfold delay. apply Q.min_r.
  replace i with (4 + (i - 4))%nat by lia.
  pose proof (power_growth (i - 4)) as H.
  set (x := ((3 # 2) ^ Z.of_nat (4 + (i - 4)))%Q) in *. clearbody x. lra.
Qed.

Lemma delay_first :
  (delay 0 == 2000 ∧ delay 1 == 3000 ∧ delay 2 == 4500 ∧ delay 3 == 6750)%Q.
Proof. repeat split; vm_compute; reflexivity. Qed.


Section StandalonePoller.

Context (uid token : string) (taskId : value) (category subcategory : jsval).
Context (env : remote).

Local Abbreviation status_request :=
  (standalone_status_request uid token taskId category subcategory).
Local Abbreviation result_request :=
  (standalone_result_request uid token taskId category subcategory).
Local Abbreviation loop :=
  (Standalone.waitForCompletion_loop uid token taskId category subcategory).

Lemma callGenVRAPI_run (endpoint : string) (body : gmap string value) (w : world) :
  Standalone.callGenVRAPI uid token endpoint body env w
  = (standalone_outcome (env (calls w)),
     advance w 1 [Fetch (Standalone.api_request uid token endpoint body)]).
Proof.
  unfold Standalone.callGenVRAPI, mbind, M_bind, fetch, standalone_outcome, advance.
  destruct (env (calls w)) as [e|rep]; simpl; [done|].
  by destruct (ok rep).
Qed.

(** One iteration, by what the status call returns. *)
Lemma standalone_iteration (n i : nat) (w : world) :
  loop (S n) i env w =
  let w1 := advance w 1 [Fetch status_request] in
  match standalone_outcome (env (calls w)) with
  | Throw e => (Throw e, w1)
  | Ret statusData =>
      match member statusData "data" with
      | Throw e => (Throw e, w1)
      | Ret _ =>
          if is_string (task_status statusData) "completed" then
            (standalone_outcome (env (S (calls w))),
             advance w 2 [Fetch status_request; Fetch result_request])
          else if is_string (task_status statusData) "failed" then
            (Throw (task_failed (task_error statusData)), w1)
          else
            loop n (S i) env (advance w 1 [Fetch status_request; Sleep (delay i)])
      end
  end.
Proof.
  simpl Standalone.waitForCompletion_loop.
  unfold mbind at 1, M_bind at 1. rewrite callGenVRAPI_run.
  fold status_request.
  destruct (standalone_outcome (env (calls w))) as [statusData|e]; [|done].
  unfold mbind at 1, M_bind at 1, lift at 1.
  destruct (member statusData "data") as [d|e]; [|done].
  destruct (is_string (task_status statusData) "completed").
  - rewrite callGenVRAPI_run. fold result_request. simpl calls.
    by rewrite advance_advance.
  - destruct (is_string (task_status statusData) "failed"); [done|].
    unfold mbind, M_bind, sleep. fold M_bind. simpl.
    unfold advance. simpl. by rewrite <- app_assoc.
Qed.

(** [k] checks that observe a non-terminal status are [k] iterations that
    each send the status request and sleep. *)
Lemma standalone_loop_pending (k : nat) : ∀ (n i : nat) (w : world),
  pending_checks not_null env (calls w) k →
  loop (k + n)%nat i env w
  = loop n (i + k)%nat env (advance w k (polling status_request i k)).
Proof.
  induction k as [|k IH]; intros n i w Hp.
  - simpl. by rewrite Nat.add_0_r, advance_0.
  - apply pending_checks_S in Hp as [(v & Hv & Hn) Hp].
    apply status_data_payload in Hv as [Hv Hnull].
    apply non_terminal_status in Hn as [Hc Hf].
    change (S k + n)%nat with (S (k + n)).
    rewrite standalone_iteration. cbv zeta.
    rewrite (payload_standalone _ _ Hv), member_not_null by (by destruct v).
    rewrite Hc, Hf. rewrite IH by exact Hp.
    rewrite advance_advance. simpl polling.
    by replace (S i + k)%nat with (i + S k)%nat by lia.
Qed.

(** The run up to the iteration that follows [k] pending checks. *)
Lemma standalone_run_pending (k n : nat) :
  pending_checks not_null env 0 k →
  run (Standalone.waitForCompletion uid token taskId category subcategory (k + n)) env
  = loop n k env (advance initial k (polling status_request 0 k)).
Proof.
  intros Hp. exact (standalone_loop_pending k n 0 initial Hp).
Qed.

Lemma standalone_timeout (n : nat) :
  pending_checks not_null env 0 n →
  run (Standalone.waitForCompletion uid token taskId category subcategory n) env
  = (Throw "Task timed out", advance initial n (polling status_request 0 n)).
Proof.
  intros Hp. rewrite <- (Nat.add_0_r n) at 1.
  by rewrite (standalone_run_pending n 0 Hp).
Qed.

Lemma standalone_completed (k n : nat) (statusData : value) :
  (k < n)%nat →
  pending_checks not_null env 0 k →
  status_data not_null (env k) = Some statusData →
  is_string (task_status statusData) "completed" = true →
  run (Standalone.waitForCompletion uid token taskId category subcategory n) env
  = (standalone_outcome (env (S k)),
     advance initial (k + 2)
       (polling status_request 0 k ++ [Fetch status_request; Fetch result_request])).
Proof.
  intros Hk Hp Hv Hc. replace n with (k + S (n - S k))%nat by lia.
  rewrite (standalone_run_pending _ _ Hp), standalone_iteration. cbv zeta.
  apply status_data_payload in Hv as [Hv Hnull].
  simpl calls. rewrite Nat.add_0_r.
  rewrite (payload_standalone _ _ Hv), member_not_null by (by destruct statusData).
  rewrite Hc. by rewrite advance_advance.
Qed.


Lemma standalone_outcome_failure (r : http_response) :
  transport_failure r = true → standalone_outcome r = Throw (transport_error r).
Proof. destruct r as [e|rep]; simpl; [done|]. by destruct (ok rep). Qed.

Lemma standalone_status_failure (k n : nat) :
  (k < n)%nat →
  pending_checks not_null env 0 k →
  transport_failure (env k) = true →
  run (Standalone.waitForCompletion uid token taskId category subcategory n) env
  = (Throw (transport_error (env k)),
     advance initial (k + 1) (polling status_request 0 k ++ [Fetch status_request])).
Proof.
  intros Hk Hp Hf. replace n with (k + S (n - S k))%nat by lia.
  rewrite (standalone_run_pending _ _ Hp), standalone_iteration. cbv zeta.
  simpl calls. rewrite Nat.add_0_r.
  rewrite (standalone_outcome_failure _ Hf). by rewrite advance_advance.
Qed.

(** The loop only adds to the log. *)
Lemma standalone_loop_extends (n : nat) : ∀ (i : nat) (w : world),
  ∃ rest, log (loop n i env w).2 = log w ++ rest.
Proof.
  induction n as [|n IH]; intros i w.
  - exists []. simpl. by rewrite app_nil_r.
  - rewrite standalone_iteration. cbv zeta.
    destruct (standalone_outcome (env (calls w))) as [v|e]; [|simpl; eauto].
    destruct (member v "data"); [|simpl; eauto].
    destruct (is_string (task_status v) "completed"); [simpl; eauto|].
    destruct (is_string (task_status v) "failed"); [simpl; eauto|].
    destruct (IH (S i) (advance w 1 [Fetch status_request; Sleep (delay i)]))
      as [rest ->].
    simpl. rewrite <- app_assoc. eauto.
Qed.

End StandalonePoller.

Section WorkerPoller.

Context (taskId : value) (category subcategory userId accessToken : jsval).
Context (env : remote).

Local Abbreviation status_request :=
  (worker_status_request taskId category subcategory userId accessToken).
Local Abbreviation result_request :=
  (worker_result_request taskId category subcategory userId accessToken).
Local Abbreviation loop :=
  (Worker.waitForCompletion_loop taskId category subcategory userId accessToken).

Lemma makeGenVRRequest_run (endpoint : string) (body : gmap string value)
    (u t : jsval) (w : world) :
  Worker.makeGenVRRequest endpoint body u t env w
  = (Ret (worker_outcome (env (calls w))),
     advance w 1 [Fetch (Worker.api_request endpoint body u t)]).
Proof.
  unfold Worker.makeGenVRRequest, try_catch, mbind, M_bind, fetch, worker_outcome,
    payload, advance.
  destruct (env (calls w)) as [e|rep]; simpl; [done|].
  destruct (ok rep); simpl; [|done].
  unfold lift. by destruct (json rep).
Qed.

(** One iteration, by what the status call returns. *)
Lemma worker_iteration (n i : nat) (w : world) :
  loop (S n) i env w =
  let w1 := advance w 1 [Fetch status_request] in
  let statusData := worker_outcome (env (calls w)) in
  if negb (Js.truthy statusData) then (Throw "Failed to get status", w1)
  else if is_string (task_status statusData) "completed" then
    (Ret (worker_outcome (env (S (calls w)))),
     advance w 2 [Fetch status_request; Fetch result_request])
  else if is_string (task_status statusData) "failed" then
    (Throw (task_failed (task_error statusData)), w1)
  else
    loop n (S i) env (advance w 1 [Fetch status_request; Sleep (delay i)]).
Proof.
  simpl Worker.waitForCompletion_loop.
  unfold mbind at 1, M_bind at 1. rewrite makeGenVRRequest_run.
  fold status_request. cbv zeta.
  destruct (negb (Js.truthy (worker_outcome (env (calls w))))); [done|].
  destruct (is_string (task_status (worker_outcome (env (calls w)))) "completed").
  - rewrite makeGenVRRequest_run. fold result_request. simpl calls.
    by rewrite advance_advance.
  - destruct (is_string (task_status (worker_outcome (env (calls w)))) "failed");
      [done|].
    unfold mbind, M_bind, sleep. fold M_bind. simpl.
    unfold advance. simpl. by rewrite <- app_assoc.
Qed.

Lemma worker_loop_pending (k : nat) : ∀ (n i : nat) (w : world),
  pending_checks Js.truthy env (calls w) k →
  loop (k + n)%nat i env w
  = loop n (i + k)%nat env (advance w k (polling status_request i k)).
Proof.
  induction k as [|k IH]; intros n i w Hp.
  - simpl. by rewrite Nat.add_0_r, advance_0.
  - apply pending_checks_S in Hp as [(v & Hv & Hn) Hp].
    apply status_data_payload in Hv as [Hv Htruthy].
    apply non_terminal_status in Hn as [Hc Hf].
    change (S k + n)%nat with (S (k + n)).
    rewrite worker_iteration. cbv zeta.
    rewrite (payload_worker _ _ Hv), Htruthy, Hc, Hf. simpl negb. cbv iota.
    rewrite IH by exact Hp.
    rewrite advance_advance. simpl polling.
    by replace (S i + k)%nat with (i + S k)%nat by lia.
Qed.

Lemma worker_run_pending (k n : nat) :
  pending_checks Js.truthy env 0 k →
  run (Worker.waitForCompletion taskId category subcategory userId accessToken (k + n)) env
  = loop n k env (advance initial k (polling status_request 0 k)).
Proof. intros Hp. exact (worker_loop_pending k n 0 initial Hp). Qed.

Lemma worker_timeout (n : nat) :
  pending_checks Js.truthy env 0 n →
  run (Worker.waitForCompletion taskId category subcategory userId accessToken n) env
  = (Throw "Task timed out", advance initial n (polling status_request 0 n)).
Proof.
  intros Hp. rewrite <- (Nat.add_0_r n) at 1.
  by rewrite (worker_run_pending n 0 Hp).
Qed.

Lemma worker_completed (k n : nat) (statusData : value) :
  (k < n)%nat →
  pending_checks Js.truthy env 0 k →
  status_data Js.truthy (env k) = Some statusData →
  is_string (task_status statusData) "completed" = true →
  run (Worker.waitForCompletion taskId category subcategory userId accessToken n) env
  = (Ret (worker_outcome (env (S k))),
     advance initial (k + 2)
       (polling status_request 0 k ++ [Fetch status_request; Fetch result_request])).
Proof.
  intros Hk Hp Hv Hc. replace n with (k + S (n - S k))%nat by lia.
  rewrite (worker_run_pending _ _ Hp), worker_iteration. cbv zeta.
  apply status_data_payload in Hv as [Hv Htruthy].
  simpl calls. rewrite Nat.add_0_r.
  rewrite (payload_worker _ _ Hv), Htruthy, Hc. simpl negb. cbv iota.
  by rewrite advance_advance.
Qed.


Lemma worker_status_failure (k n : nat) :
  (k < n)%nat →
  pending_checks Js.truthy env 0 k →
  transport_failure (env k) = true →
  run (Worker.waitForCompletion taskId category subcategory userId accessToken n) env
  = (Throw "Failed to get status",
     advance initial (k + 1) (polling status_request 0 k ++ [Fetch status_request])).
Proof.
  intros Hk Hp Hf. replace n with (k + S (n - S k))%nat by lia.
  rewrite (worker_run_pending _ _ Hp), worker_iteration. cbv zeta.
  simpl calls. rewrite Nat.add_0_r.
  unfold worker_outcome at 1. rewrite (transport_failure_payload _ Hf).
  simpl. by rewrite advance_advance.
Qed.

(** The loop only adds to the log. *)
Lemma worker_loop_extends (n : nat) : ∀ (i : nat) (w : world),
  ∃ rest, log (loop n i env w).2 = log w ++ rest.
Proof.
  induction n as [|n IH]; intros i w.
  - exists []. simpl. by rewrite app_nil_r.
  - rewrite worker_iteration. cbv zeta.
    destruct (negb (Js.truthy (worker_outcome (env (calls w))))); [simpl; eauto|].
    destruct (is_string (task_status _) "completed"); [simpl; eauto|].
    destruct (is_string (task_status _) "failed"); [simpl; eauto|].
    destruct (IH (S i) (advance w 1 [Fetch status_request; Sleep (delay i)]))
      as [rest ->].
    simpl. rewrite <- app_assoc. eauto.
Qed.

End WorkerPoller.

Lemma replicate_endpoint (n : nat) (req r : request) :
  r ∈ replicate n req → r = req.
Proof. by intros [-> _]%elem_of_replicate. Qed.

(** C8.  When sixty consecutive status checks observe a status that is
    neither ["completed"] nor ["failed"] (an absent status included), the
    poller raises ["Task timed out"]; the sixty requests it sent are all
    status requests, none is a fetch-result request. *)
Theorem timeout_after_sixty_pending :
  (∀ uid token taskId category subcategory env,
     pending_checks not_null env 0 60 →
     let r := run (Standalone.waitForCompletion uid token taskId category subcategory 60) env in
     r.1 = Throw "Task timed out" ∧
     requests (log r.2)
       = replicate 60 (standalone_status_request uid token taskId category subcategory) ∧
     ∀ req, req ∈ requests (log r.2) → endpoint req = "/status") ∧
  (∀ taskId category subcategory userId accessToken env,
     pending_checks Js.truthy env 0 60 →
     let r := run (Worker.waitForCompletion taskId category subcategory
                     userId accessToken 60) env in
     r.1 = Throw "Task timed out" ∧
     requests (log r.2)
       = replicate 60 (worker_status_request taskId category subcategory
                         userId accessToken) ∧
     ∀ req, req ∈ requests (log r.2) → endpoint req = "/status").
Proof.
  split.
  - intros uid token taskId category subcategory env Hp r. subst r.
    rewrite (standalone_timeout _ _ _ _ _ _ _ Hp).
    cbn [fst snd advance log initial app]. rewrite requests_polling.
    split; [done|]. split; [done|].
    intros req Hreq. by rewrite (replicate_endpoint _ _ _ Hreq).
  - intros taskId category subcategory userId accessToken env Hp r. subst r.
    rewrite (worker_timeout _ _ _ _ _ _ _ Hp).
    cbn [fst snd advance log initial app]. rewrite requests_polling.
    split; [done|]. split; [done|].
    intros req Hreq. by rewrite (replicate_endpoint _ _ _ Hreq).
Qed.

Lemma env_pending_checks (k : nat) :
  pending_checks not_null env_pending 0 k ∧ pending_checks Js.truthy env_pending 0 k.
Proof.
  split; intros j _; exists (JObj {[ "status" := JStr "pending" ]});
    split; vm_compute; reflexivity.
Qed.

(** C8, instance: a remote system that always answers ["pending"]. *)
Lemma timeout_after_sixty_pending_witness :
  (run (Standalone.waitForCompletion "user" "secret" (JStr "task-1")
          (Some (JStr "imagegen")) (Some (JStr "flux_dev")) 60) env_pending).1
  = Throw "Task timed out" ∧
  (run (Worker.waitForCompletion (JStr "task-1")
          (Some (JStr "imagegen")) (Some (JStr "flux_dev"))
          (Some (JStr "user")) (Some (JStr "secret")) 60) env_pending).1
  = Throw "Task timed out".
Proof.
  destruct timeout_after_sixty_pending as [Hs Hw]. split.
  - apply (Hs "user" "secret" (JStr "task-1") (Some (JStr "imagegen"))
             (Some (JStr "flux_dev")) env_pending).
    apply env_pending_checks.
  - apply (Hw (JStr "task-1") (Some (JStr "imagegen")) (Some (JStr "flux_dev"))
             (Some (JStr "user")) (Some (JStr "secret")) env_pending).
    apply env_pending_checks.
Defined.

(** C6.  When a status check observes ["completed"] (after [k] checks that
    observed a non-terminal status), the poller sends exactly one
    fetch-result request right after that check and nothing else: no further
    status check, no sleep; the payload of the fetch-result response is the
    result. *)
Theorem completed_fetches_result_once :
  (∀ uid token taskId category subcategory env (k n : nat) statusData,
     (k < n)%nat →
     pending_checks not_null env 0 k →
     status_data not_null (env k) = Some statusData →
     is_string (task_status statusData) "completed" = true →
     let r := run (Standalone.waitForCompletion uid token taskId category subcategory n) env in
     log r.2
       = polling (standalone_status_request uid token taskId category subcategory) 0 k
         ++ [Fetch (standalone_status_request uid token taskId category subcategory);
             Fetch (standalone_result_request uid token taskId category subcategory)] ∧
     calls r.2 = (k + 2)%nat ∧
     ∀ result, payload (env (S k)) = Some result → r.1 = Ret result) ∧
  (∀ taskId category subcategory userId accessToken env (k n : nat) statusData,
     (k < n)%nat →
     pending_checks Js.truthy env 0 k →
     status_data Js.truthy (env k) = Some statusData →
     is_string (task_status statusData) "completed" = true →
     let r := run (Worker.waitForCompletion taskId category subcategory
                     userId accessToken n) env in
     log r.2
       = polling (worker_status_request taskId category subcategory userId accessToken) 0 k
         ++ [Fetch (worker_status_request taskId category subcategory userId accessToken);
             Fetch (worker_result_request taskId category subcategory userId accessToken)] ∧
     calls r.2 = (k + 2)%nat ∧
     ∀ result, payload (env (S k)) = Some result → r.1 = Ret result).
Proof.
  split.
  - intros uid token taskId category subcategory env k n v Hk Hp Hv Hc r. subst r.
    rewrite (standalone_completed _ _ _ _ _ _ _ _ _ Hk Hp Hv Hc).
    cbn [fst snd advance log calls initial app]. split; [done|]. split; [lia|].
    intros result Hres. by apply payload_standalone.
  - intros taskId category subcategory userId accessToken env k n v Hk Hp Hv Hc r. subst r.
    rewrite (worker_completed _ _ _ _ _ _ _ _ _ Hk Hp Hv Hc).
    cbn [fst snd advance log calls initial app]. split; [done|]. split; [lia|].
    intros result Hres. by rewrite (payload_worker _ _ Hres).
Qed.

Lemma env_completed_checks :
  pending_checks not_null env_completed 0 2 ∧ pending_checks Js.truthy env_completed 0 2.
Proof.
  split; intros j Hj; exists (JObj {[ "status" := JStr "pending" ]});
    destruct j as [|[|j]]; try lia; split; vm_compute; reflexivity.
Qed.

(** C6, instance: two pending checks, then ["completed"]; the result is the
    payload of the fetch-result call. *)
Lemma completed_fetches_result_once_witness :
  (run (Standalone.waitForCompletion "user" "secret" (JStr "task-1")
          (Some (JStr "imagegen")) (Some (JStr "flux_dev")) 60) env_completed).1
  = Ret (JObj {[ "data" := JObj {[ "output" := JStr "https://cdn.example/cat.png" ]} ]}) ∧
  (run (Worker.waitForCompletion (JStr "task-1")
          (Some (JStr "imagegen")) (Some (JStr "flux_dev"))
          (Some (JStr "user")) (Some (JStr "secret")) 60) env_completed).1
  = Ret (JObj {[ "data" := JObj {[ "output" := JStr "https://cdn.example/cat.png" ]} ]}).
Proof.
  destruct completed_fetches_result_once as [Hs Hw]. split.
  - refine (proj2 (proj2 (Hs "user" "secret" (JStr "task-1") (Some (JStr "imagegen"))
      (Some (JStr "flux_dev")) env_completed 2%nat 60%nat
      (JObj {[ "data" := JObj {[ "status" := JStr "completed" ]} ]}) _ _ _ _)) _ _).
    + lia.
    + apply env_completed_checks.
    + vm_compute; reflexivity.
    + vm_compute; reflexivity.
    + reflexivity.
  - refine (proj2 (proj2 (Hw (JStr "task-1") (Some (JStr "imagegen"))
      (Some (JStr "flux_dev")) (Some (JStr "user")) (Some (JStr "secret"))
      env_completed 2%nat 60%nat
      (JObj {[ "data" := JObj {[ "status" := JStr "completed" ]} ]}) _ _ _ _)) _ _).
    + lia.
    + apply env_completed_checks.
    + vm_compute; reflexivity.
    + vm_compute; reflexivity.
    + reflexivity.
Defined.




Lemma standalone_sleeps_prefix uid token taskId category subcategory env (k n : nat) :
  (k ≤ n)%nat →
  pending_checks not_null env 0 k →
  take k (sleeps (log (run (Standalone.waitForCompletion uid token taskId
                              category subcategory n) env).2))
  = delay <$> seq 0 k.
Proof.
  intros Hk Hp. replace n with (k + (n - k))%nat by lia.
  rewrite (standalone_run_pending _ _ _ _ _ _ _ _ Hp).
  destruct (standalone_loop_extends uid token taskId category subcategory env
              (n - k) k
              (advance initial k
                 (polling (standalone_status_request uid token taskId category subcategory)
                    0 k))) as [rest ->].
  cbn [advance log initial app]. rewrite sleeps_app, sleeps_polling.
  apply take_app_length'. by rewrite length_fmap, length_seq.
Qed.

Lemma worker_sleeps_prefix taskId category subcategory userId accessToken env (k n : nat) :
  (k ≤ n)%nat →
  pending_checks Js.truthy env 0 k →
  take k (sleeps (log (run (Worker.waitForCompletion taskId category subcategory
                              userId accessToken n) env).2))
  = delay <$> seq 0 k.
Proof.
  intros Hk Hp. replace n with (k + (n - k))%nat by lia.
  rewrite (worker_run_pending _ _ _ _ _ _ _ _ Hp).
  destruct (worker_loop_extends taskId category subcategory userId accessToken env
              (n - k) k
              (advance initial k
                 (polling (worker_status_request taskId category subcategory
                             userId accessToken) 0 k))) as [rest ->].
  cbn [advance log initial app]. rewrite sleeps_app, sleeps_polling.
  apply take_app_length'. by rewrite length_fmap, length_seq.
Qed.

(** C3.  The delay slept after attempt [i] is [min(2000 * 1.5^i, 10000)]
    milliseconds, that is 2000, 3000, 4500, 6750 and then 10000: in every
    run, the delays slept after the first [k] checks, which observe a
    non-terminal status, are those of attempts [0], ..., [k-1].  For the
    statuses pending, pending, completed the delays slept are those of
    attempts 0 and 1 and their sum is 2000 + 3000. *)
Theorem backoff_schedule :
  ((delay 0 == 2000)%Q ∧ (delay 1 == 3000)%Q ∧ (delay 2 == 4500)%Q ∧
   (delay 3 == 6750)%Q ∧ ∀ i, (4 ≤ i)%nat → (delay i == 10000)%Q) ∧
  (∀ uid token taskId category subcategory env (k n : nat),
     (k ≤ n)%nat →
     pending_checks not_null env 0 k →
     take k (sleeps (log (run (Standalone.waitForCompletion uid token taskId
                                 category subcategory n) env).2))
     = delay <$> seq 0 k) ∧
  (∀ taskId category subcategory userId accessToken env (k n : nat),
     (k ≤ n)%nat →
     pending_checks Js.truthy env 0 k →
     take k (sleeps (log (run (Worker.waitForCompletion taskId category subcategory
                                 userId accessToken n) env).2))
     = delay <$> seq 0 k) ∧
  (∀ uid token taskId category subcategory env statusData,
     pending_checks not_null env 0 2 →
     status_data not_null (env 2%nat) = Some statusData →
     is_string (task_status statusData) "completed" = true →
     let r := run (Standalone.waitForCompletion uid token taskId category subcategory 60) env in
     sleeps (log r.2) = [delay 0; delay 1] ∧
     (total_sleep (log r.2) == 2000 + 3000)%Q) ∧
  (∀ taskId category subcategory userId accessToken env statusData,
     pending_checks Js.truthy env 0 2 →
     status_data Js.truthy (env 2%nat) = Some statusData →
     is_string (task_status statusData) "completed" = true →
     let r := run (Worker.waitForCompletion taskId category subcategory
                     userId accessToken 60) env in
     sleeps (log r.2) = [delay 0; delay 1] ∧
     (total_sleep (log r.2) == 2000 + 3000)%Q).
Proof.
  split; [|split; [|split; [|split]]].
  - destruct delay_first as (H0 & H1 & H2 & H3).
    repeat split; try assumption. apply delay_cap.
  - intros. by apply standalone_sleeps_prefix.
  - intros. by apply worker_sleeps_prefix.
  - intros uid token taskId category subcategory env v Hp Hv Hc r. subst r.
    rewrite (standalone_completed _ _ _ _ _ _ 2 60 _ ltac:(lia) Hp Hv Hc).
    cbn [fst snd advance log calls initial app].
    unfold total_sleep. rewrite sleeps_app, sleeps_polling.
    split; [reflexivity|]. vm_compute. reflexivity.
  - intros taskId category subcategory userId accessToken env v Hp Hv Hc r. subst r.
    rewrite (worker_completed _ _ _ _ _ _ 2 60 _ ltac:(lia) Hp Hv Hc).
    cbn [fst snd advance log calls initial app].
    unfold total_sleep. rewrite sleeps_app, sleeps_polling.
    split; [reflexivity|]. vm_compute. reflexivity.
Qed.

(** C3, instance: two pending checks, then ["completed"]. *)
Lemma backoff_schedule_witness :
  let s := run (Standalone.waitForCompletion "user" "secret" (JStr "task-1")
                  (Some (JStr "imagegen")) (Some (JStr "flux_dev")) 60) env_completed in
  let w := run (Worker.waitForCompletion (JStr "task-1")
                  (Some (JStr "imagegen")) (Some (JStr "flux_dev"))
                  (Some (JStr "user")) (Some (JStr "secret")) 60) env_completed in
  (take 2 (sleeps (log s.2)) = [delay 0; delay 1] ∧
   (total_sleep (log s.2) == 2000 + 3000)%Q) ∧
  (take 2 (sleeps (log w.2)) = [delay 0; delay 1] ∧
   (total_sleep (log w.2) == 2000 + 3000)%Q).
Proof.
  destruct backoff_schedule as (_ & Hs & Hw & Hsc & Hwc). split; split.
  - apply (Hs "user" "secret" (JStr "task-1") (Some (JStr "imagegen"))
             (Some (JStr "flux_dev")) env_completed 2%nat 60%nat); [lia|].
    apply env_completed_checks.
  - apply (Hsc "user" "secret" (JStr "task-1") (Some (JStr "imagegen"))
             (Some (JStr "flux_dev")) env_completed
             (JObj {[ "data" := JObj {[ "status" := JStr "completed" ]} ]})).
    + apply env_completed_checks.
    + vm_compute; reflexivity.
    + vm_compute; reflexivity.
  - apply (Hw (JStr "task-1") (Some (JStr "imagegen")) (Some (JStr "flux_dev"))
             (Some (JStr "user")) (Some (JStr "secret")) env_completed 2%nat 60%nat);
      [lia|].
    apply env_completed_checks.
  - apply (Hwc (JStr "task-1") (Some (JStr "imagegen")) (Some (JStr "flux_dev"))
             (Some (JStr "user")) (Some (JStr "secret")) env_completed
             (JObj {[ "data" := JObj {[ "status" := JStr "completed" ]} ]})).
    + apply env_completed_checks.
    + vm_compute; reflexivity.
    + vm_compute; reflexivity.
Defined.

(** C2 (amended).  In the stdio server a transport failure of the status
    request or of the fetch-result request is raised at once, as the
    network error itself or as an error whose message holds the HTTP status
    and the response body; in the Worker a transport failure of the status
    request is raised at once as ["Failed to get status"].  In each case the
    failing request is the last event of the run: no sleep and no further
    attempt follow it. *)
Theorem transport_failure_propagates :
  (∀ rep, transport_error (Resolved rep)
          = "GenVR API error: " +:+ Js.nat_to_string (status rep) +:+ " "
              +:+ statusText rep +:+ " - " +:+ text rep) ∧
  (∀ uid token taskId category subcategory env (k n : nat),
     (k < n)%nat →
     pending_checks not_null env 0 k →
     transport_failure (env k) = true →
     let r := run (Standalone.waitForCompletion uid token taskId category subcategory n) env in
     r.1 = Throw (transport_error (env k)) ∧
     log r.2
       = polling (standalone_status_request uid token taskId category subcategory) 0 k
         ++ [Fetch (standalone_status_request uid token taskId category subcategory)]) ∧
  (∀ uid token taskId category subcategory env (k n : nat) statusData,
     (k < n)%nat →
     pending_checks not_null env 0 k →
     status_data not_null (env k) = Some statusData →
     is_string (task_status statusData) "completed" = true →
     transport_failure (env (S k)) = true →
     let r := run (Standalone.waitForCompletion uid token taskId category subcategory n) env in
     r.1 = Throw (transport_error (env (S k))) ∧
     log r.2
       = polling (standalone_status_request uid token taskId category subcategory) 0 k
         ++ [Fetch (standalone_status_request uid token taskId category subcategory);
             Fetch (standalone_result_request uid token taskId category subcategory)]) ∧
  (∀ taskId category subcategory userId accessToken env (k n : nat),
     (k < n)%nat →
     pending_checks Js.truthy env 0 k →
     transport_failure (env k) = true →
     let r := run (Worker.waitForCompletion taskId category subcategory
                     userId accessToken n) env in
     r.1 = Throw "Failed to get status" ∧
     log r.2
       = polling (worker_status_request taskId category subcategory userId accessToken) 0 k
         ++ [Fetch (worker_status_request taskId category subcategory userId accessToken)]).
Proof.
  split; [done|]. split; [|split].
  - intros uid token taskId category subcategory env k n Hk Hp Hf r. subst r.
    by rewrite (standalone_status_failure _ _ _ _ _ _ _ _ Hk Hp Hf).
  - intros uid token taskId category subcategory env k n v Hk Hp Hv Hc Hf r. subst r.
    rewrite (standalone_completed _ _ _ _ _ _ _ _ _ Hk Hp Hv Hc).
    by rewrite (standalone_outcome_failure _ Hf).
  - intros taskId category subcategory userId accessToken env k n Hk Hp Hf r. subst r.
    by rewrite (worker_status_failure _ _ _ _ _ _ _ _ Hk Hp Hf).
Qed.

Lemma one_pending_check (env : remote) :
  env 0%nat = pending_reply →
  pending_checks not_null env 0 1 ∧ pending_checks Js.truthy env 0 1.
Proof.
  intros H0.
  split; intros j Hj; exists (JObj {[ "status" := JStr "pending" ]});
    destruct j as [|j]; try lia; simpl; rewrite H0; split; vm_compute; reflexivity.
Qed.

(** C2, instance: a server error on the second status check, and a server
    error on the fetch-result request. *)
Lemma transport_failure_propagates_witness :
  (run (Standalone.waitForCompletion "user" "secret" (JStr "task-1")
          (Some (JStr "imagegen")) (Some (JStr "flux_dev")) 60) env_broken).1
  = Throw "GenVR API error: 500 Internal Server Error - boom" ∧
  (run (Standalone.waitForCompletion "user" "secret" (JStr "task-1")
          (Some (JStr "imagegen")) (Some (JStr "flux_dev")) 60) env_broken_result).1
  = Throw "GenVR API error: 500 Internal Server Error - boom" ∧
  (run (Worker.waitForCompletion (JStr "task-1")
          (Some (JStr "imagegen")) (Some (JStr "flux_dev"))
          (Some (JStr "user")) (Some (JStr "secret")) 60) env_broken).1
  = Throw "Failed to get status".
Proof.
  destruct transport_failure_propagates as (_ & Hstatus & Hresult & Hworker).
  split; [|split].
  - apply (Hstatus "user" "secret" (JStr "task-1") (Some (JStr "imagegen"))
             (Some (JStr "flux_dev")) env_broken 1%nat 60%nat).
    + lia.
    + by apply one_pending_check.
    + reflexivity.
  - apply (Hresult "user" "secret" (JStr "task-1") (Some (JStr "imagegen"))
             (Some (JStr "flux_dev")) env_broken_result 1%nat 60%nat
             (JObj {[ "data" := JObj {[ "status" := JStr "completed" ]} ]})).
    + lia.
    + by apply one_pending_check.
    + vm_compute; reflexivity.
    + vm_compute; reflexivity.
    + reflexivity.
  - apply (Hworker (JStr "task-1") (Some (JStr "imagegen")) (Some (JStr "flux_dev"))
             (Some (JStr "user")) (Some (JStr "secret")) env_broken 1%nat 60%nat).
    + lia.
    + by apply one_pending_check.
    + reflexivity.
Defined.

(** C2 as stated fails for the Worker: after a server error on a status
    request the error raised is ["Failed to get status"], which holds
    neither the HTTP status nor the response body. *)
Lemma worker_error_drops_status_and_body :
  env_broken 1%nat
    = Resolved {| status := 500; statusText := "Internal Server Error"; text := "boom";
                  json := Throw "Unexpected token b in JSON at position 0" |} ∧
  (run (Worker.waitForCompletion (JStr "task-1")
          (Some (JStr "imagegen")) (Some (JStr "flux_dev"))
          (Some (JStr "user")) (Some (JStr "secret")) 60) env_broken).1
  = Throw "Failed to get status" ∧
  Js.includes "500" "Failed to get status" = false ∧
  Js.includes "boom" "Failed to get status" = false.
Proof. repeat split; vm_compute; reflexivity. Qed.

(** In the Worker a server error on the fetch-result request is not raised:
    the poller returns [null]. *)
Example worker_result_failure_returns_null :
  (run (Worker.waitForCompletion (JStr "task-1")
          (Some (JStr "imagegen")) (Some (JStr "flux_dev"))
          (Some (JStr "user")) (Some (JStr "secret")) 60) env_broken_result).1
  = Ret JNull.
Proof. vm_compute. reflexivity. Qed.

(** ** Argument routing *)

Lemma set_field_other (k k' : string) (e : jsval) (o : gmap string value) :
  k ≠ k' → Js.set_field k e o !! k' = o !! k'.
Proof.
  intros Hne. destruct e; simpl; [by rewrite lookup_insert_ne|by rewrite lookup_delete_ne].
Qed.

(** The cleaned parameters hold neither internal category field. *)
Lemma clean_removes_internal (toolArgs : value) (subcategory : string) :
  (Standalone.clean toolArgs subcategory).2 !! "category_genvr" = None ∧
  (Standalone.clean toolArgs subcategory).2 !! "subcategory_genvr" = None.
Proof.
  unfold Standalone.clean.
  destruct (Standalone.unwrap (Js.own toolArgs) !! "model") as [[]|];
    try destruct (_ && _); simpl;
    (split; [by rewrite lookup_delete_ne, lookup_delete_eq|by rewrite lookup_delete_eq]).
Qed.

(** Unless the cleaned parameters are wrapped once more, the body sent to
    [/generate] holds neither internal category field. *)
Lemma flat_body_has_no_internal_field (toolArgs : value) (name : string) :
  let '(category, subcategory) := Standalone.parse_name name in
  let '(subcategory, parameters) := Standalone.clean toolArgs subcategory in
  Standalone.is_object (parameters !! "parameters") = false →
  Standalone.generate_body category subcategory parameters !! "category_genvr" = None ∧
  Standalone.generate_body category subcategory parameters !! "subcategory_genvr" = None.
Proof.
  destruct (Standalone.parse_name name) as [category subcategory].
  pose proof (clean_removes_internal toolArgs subcategory) as [Hc Hs].
  destruct (Standalone.clean toolArgs subcategory) as [sub parameters].
  simpl in Hc, Hs. intros Hflat.
  unfold Standalone.generate_body, Standalone.unwrap.
  assert (match parameters !! "parameters" with
          | Some p => if Standalone.is_object (Some p) then Js.own p else parameters
          | None => parameters
          end = parameters) as ->.
  { destruct (parameters !! "parameters"); [by rewrite Hflat|done]. }
  split; apply lookup_union_None; (split; [done|]);
    rewrite !set_field_other by done; apply lookup_empty.
Qed.

(** C5 fails on arguments wrapped twice: the internal fields are removed
    before the second unwrapping, so a [category_genvr] inside the inner
    wrapper is sent to [/generate]. *)
Theorem double_nesting_leaks_internal_field :
  head (requests (log (run (Standalone.call_tool "user" "secret"
                              "generate_imagegen_flux_dev" (Some doubly_nested_args))
                         env_job).2))
  = Some {| endpoint := "/generate";
            body := {[ "category" := JStr "imagegen";
                       "subcategory" := JStr "flux_dev";
                       "category_genvr" := JStr "x";
                       "prompt" := JStr "a cat";
                       "uid" := JStr "user" ]};
            bearer := Some (JStr "secret") |}.
Proof. vm_compute. reflexivity. Qed.

(** The same arguments wrapped once lose the internal field. *)
Example single_nesting_is_cleaned :
  head (requests (log (run (Standalone.call_tool "user" "secret"
                              "generate_imagegen_flux_dev" (Some nested_args))
                         env_job).2))
  = Some {| endpoint := "/generate";
            body := {[ "category" := JStr "imagegen";
                       "subcategory" := JStr "flux_dev";
                       "prompt" := JStr "a cat";
                       "uid" := JStr "user" ]};
            bearer := Some (JStr "secret") |}.
Proof. vm_compute. reflexivity. Qed.

(** ** The dispatch boundary *)

Lemma try_catch_run {A : Type} (m : M A) (handler : string → M A) env w :
  try_catch m handler env w
  = match m env w with
    | (Ret a, w') => (Ret a, w')
    | (Throw e, w') => handler e env w'
    end.
Proof. reflexivity. Qed.

(** C9.  A tool call never ends in an exception: the handler returns a tool
    result in every run, and whenever its [try] block raises an error with
    message [m], the result has [isError] set and a single text entry,
    ["Error: m"] in the stdio server and ["Tool execution failed: m"] in the
    Worker. *)
Theorem handler_converts_errors :
  (∀ uid token name args env,
     let body := run (Standalone.call_tool_body uid token name args) env in
     let r := run (Standalone.call_tool uid token name args) env in
     (∃ result, r.1 = Ret result) ∧
     r.2 = body.2 ∧
     (∀ message, body.1 = Throw message →
        r.1 = Ret {| content := [Literal ("Error: " +:+ message)];
                     isError := true;
                     structuredContent := None |}) ∧
     (∀ result, body.1 = Ret result → r.1 = Ret result)) ∧
  (∀ category subcategory args env,
     let body := run (Worker.call_tool_body category subcategory args) env in
     let r := run (Worker.call_tool category subcategory args) env in
     (∃ result, r.1 = Ret result) ∧
     r.2 = body.2 ∧
     (∀ message, body.1 = Throw message →
        r.1 = Ret {| content := [Literal ("Tool execution failed: " +:+ message)];
                     isError := true;
                     structuredContent := None |}) ∧
     (∀ result, body.1 = Ret result → r.1 = Ret result)).
Proof.
  split.
  - intros uid token name args env body r. subst body r.
    unfold run, Standalone.call_tool. rewrite try_catch_run.
    destruct (Standalone.call_tool_body uid token name args env _) as [[result|e] w];
      unfold mret, M_ret; simpl.
    + split; [eauto|]. split; [done|]. split; [done|]. by intros ? [= <-].
    + split; [eauto|]. split; [done|]. split; [|done]. by intros ? [= <-].
  - intros category subcategory args env body r. subst body r.
    unfold run, Worker.call_tool. rewrite try_catch_run.
    destruct (Worker.call_tool_body category subcategory args env _) as [[result|e] w];
      unfold mret, M_ret; simpl.
    + split; [eauto|]. split; [done|]. split; [done|]. by intros ? [= <-].
    + split; [eauto|]. split; [done|]. split; [|done]. by intros ? [= <-].
Qed.

(** C9, instance: a task that stays pending times out, and the tool result
    carries the error. *)
Lemma handler_converts_errors_witness :
  (run (Standalone.call_tool "user" "secret" "generate_imagegen_flux_dev"
          (Some (JObj {[ "prompt" := JStr "a cat" ]}))) env_stuck).1
  = Ret {| content := [Literal "Error: Task timed out"];
           isError := true; structuredContent := None |} ∧
  (run (Worker.call_tool (Some (JStr "imagegen")) (Some (JStr "flux_dev")) worker_args)
     env_stuck).1
  = Ret {| content := [Literal "Tool execution failed: Task timed out"];
           isError := true; structuredContent := None |}.
Proof.
  destruct handler_converts_errors as [Hs Hw]. split.
  - destruct (Hs "user" "secret" "generate_imagegen_flux_dev"
                (Some (JObj {[ "prompt" := JStr "a cat" ]})) env_stuck)
      as (_ & _ & Herr & _).
    apply Herr. vm_compute. reflexivity.
  - destruct (Hw (Some (JStr "imagegen")) (Some (JStr "flux_dev")) worker_args env_stuck)
      as (_ & _ & Herr & _).
    apply Herr. vm_compute. reflexivity.
Defined.

(** The failures the handlers convert, on concrete runs. *)
Example standalone_failures :
  (run (Standalone.call_tool "user" "secret" "generate_imagegen_flux_dev" None) env_job).1
  = Ret (Standalone.failure "No arguments provided") ∧
  (run (Standalone.call_tool "user" "secret" "list_models"
          (Some (JObj ∅))) env_job).1
  = Ret (Standalone.failure "Unknown tool: list_models") ∧
  (run (Standalone.call_tool "user" "secret" "generate_imagegen_flux_dev"
          (Some (JObj ∅))) env_pending).1
  = Ret (Standalone.failure "No task ID returned from generate endpoint") ∧
  (run (Standalone.call_tool "user" "secret" "generate_imagegen_flux_dev"
          (Some (JObj ∅))) env_rejected).1
  = Ret (Standalone.failure "Task failed: out of credits") ∧
  (run (Standalone.call_tool "user" "secret" "generate_imagegen_flux_dev"
          (Some (JObj ∅))) (λ _, error_reply)).1
  = Ret (Standalone.failure "GenVR API error: 500 Internal Server Error - boom") ∧
  (run (Standalone.call_tool "user" "secret" "generate_imagegen_flux_dev"
          (Some (JObj ∅))) (λ _, NetworkFailure "fetch failed")).1
  = Ret (Standalone.failure "fetch failed").
Proof. repeat split; vm_compute; reflexivity. Qed.

Example worker_failures :
  (run (Worker.call_tool (Some (JStr "imagegen")) (Some (JStr "flux_dev")) worker_args)
     env_pending).1
  = Ret (Worker.failure "No task ID returned from generate endpoint") ∧
  (run (Worker.call_tool (Some (JStr "imagegen")) (Some (JStr "flux_dev")) worker_args)
     env_rejected).1
  = Ret (Worker.failure "Task failed: out of credits") ∧
  (run (Worker.call_tool (Some (JStr "imagegen")) (Some (JStr "flux_dev")) worker_args)
     (λ _, error_reply)).1
  = Ret (Worker.failure "No task ID returned from generate endpoint") ∧
  (run (Worker.call_tool (Some (JStr "imagegen")) (Some (JStr "flux_dev")) worker_args)
     env_broken_result).1
  = Ret (Worker.failure "No task ID returned from generate endpoint").
Proof. repeat split; vm_compute; reflexivity. Qed.

Example successful_calls :
  (run (Standalone.call_tool "user" "secret" "generate_imagegen_flux_dev"
          (Some (JObj {[ "prompt" := JStr "a cat" ]}))) env_job).1
  = Ret {| content :=
             [Stringify (Some (JObj {[ "data" :=
                 JObj {[ "output" := JStr "https://cdn.example/cat.png" ]} ]}))];
           isError := false; structuredContent := None |} ∧
  (run (Worker.call_tool (Some (JStr "imagegen")) (Some (JStr "flux_dev")) worker_args)
     env_job).1
  = Ret {| content :=
             [Stringify (Some (JObj {[ "data" :=
                 JObj {[ "output" := JStr "https://cdn.example/cat.png" ]} ]}))];
           isError := false;
           structuredContent :=
             Some (JObj {[ "data" :=
                 JObj {[ "output" := JStr "https://cdn.example/cat.png" ]} ]}) |}.
Proof. split; vm_compute; reflexivity. Qed.

(** The first event of a Worker tool call is the request to [/generate]. *)
Lemma worker_call_tool_first_request (category subcategory : jsval)
    (args : gmap string value) (env : remote) :
  ∃ rest,
    log (run (Worker.call_tool category subcategory args) env).2
    = Fetch (Worker.api_request "/generate"
               (Worker.generate_body category subcategory args)
               (args !! "userId") (args !! "accessToken")) :: rest.
Proof.
  unfold run, Worker.call_tool. rewrite try_catch_run.
  unfold Worker.call_tool_body. cbv zeta.
  unfold mbind at 1, M_bind at 1. rewrite makeGenVRRequest_run.
  set (greq := Worker.api_request _ _ _ _).
  destruct (Js.get_opt _ "id") as [id|]; [|by exists []].
  destruct (Js.truthy id); [|by exists []].
  unfold mbind, M_bind, Worker.waitForCompletion.
  destruct (worker_loop_extends id category subcategory (args !! "userId")
              (args !! "accessToken") env 60 0 (advance {| calls := 0; log := [] |} 1 [Fetch greq]))
    as [rest Hrest].
  destruct (Worker.waitForCompletion_loop _ _ _ _ _ _ _ _ _) as [[result|e] w'];
    simpl in *; rewrite Hrest; eauto.
Qed.

(** C10.  When the arguments of a Worker tool call hold [userId] and
    [accessToken], the body of the request to [/generate] holds both fields
    unchanged, next to the [uid] field set to the user id, and the bearer
    token of the request is the access token. *)
Theorem credentials_sent_in_generate_body
    (category subcategory : jsval) (args : gmap string value) (env : remote)
    (user secret : value) :
  args !! "userId" = Some user →
  args !! "accessToken" = Some secret →
  ∃ req,
    head (requests (log (run (Worker.call_tool category subcategory args) env).2))
      = Some req ∧
    endpoint req = "/generate" ∧
    body req !! "userId" = Some user ∧
    body req !! "accessToken" = Some secret ∧
    body req !! "uid" = Some user ∧
    bearer req = Some secret ∧
    ∀ key, key ≠ "uid" → is_Some (args !! key) → body req !! key = args !! key.
Proof.
  intros Hu Ht.
  destruct (worker_call_tool_first_request category subcategory args env) as [rest ->].
  eexists. split; [reflexivity|]. rewrite Hu, Ht.
  unfold Worker.api_request, Worker.generate_body. simpl.
  assert (∀ key, key ≠ "uid" → is_Some (args !! key) →
            <["uid" := user]> (args ∪ Js.set_field "subcategory" subcategory
                                        (Js.set_field "category" category ∅)) !! key
            = args !! key) as Hkeep.
  { intros key Hne [v Hv]. rewrite lookup_insert_ne by done.
    rewrite Hv. by apply lookup_union_Some_l. }
  split; [done|]. split; [by rewrite Hkeep, Hu|]. split; [by rewrite Hkeep, Ht|].
  split; [by rewrite lookup_insert_eq|]. split; [done|]. exact Hkeep.
Qed.

(** C10, instance. *)
Lemma credentials_sent_in_generate_body_witness :
  ∃ req,
    head (requests (log (run (Worker.call_tool (Some (JStr "imagegen"))
                                (Some (JStr "flux_dev")) worker_args) env_job).2))
      = Some req ∧
    body req !! "userId" = Some (JStr "user") ∧
    body req !! "accessToken" = Some (JStr "secret") ∧
    body req !! "uid" = Some (JStr "user") ∧
    bearer req = Some (JStr "secret").
Proof.
  destruct (credentials_sent_in_generate_body (Some (JStr "imagegen"))
              (Some (JStr "flux_dev")) worker_args env_job (JStr "user") (JStr "secret"))
    as (req & Hreq & _ & Hu & Ht & Huid & Hb & _).
  - vm_compute. reflexivity.
  - vm_compute. reflexivity.
  - exists req. repeat split; assumption.
Defined.

(** A status payload without any status field is non-terminal for both
    pollers. *)
Example absent_status_is_pending :
  status_data not_null (json_reply (JObj ∅)) = Some (JObj ∅) ∧
  status_data Js.truthy (json_reply (JObj ∅)) = Some (JObj ∅) ∧
  task_status (JObj ∅) = None ∧
  non_terminal (JObj ∅) = true.
Proof. repeat split; vm_compute; reflexivity. Qed.

(** * Further properties of the code *)

(** ** The shape of every poll *)

Lemma polling_snoc_front (req : request) (i k : nat) (rest : list event) :
  [Fetch req; Sleep (delay i)] ++ polling req (S i) k ++ rest
  = polling req i (S k) ++ rest.
Proof. reflexivity. Qed.

Section StandaloneShape.

Context (uid token : string) (taskId : value) (category subcategory : jsval).
Context (env : remote).

Local Abbreviation status_request :=
  (standalone_status_request uid token taskId category subcategory).
Local Abbreviation result_request :=
  (standalone_result_request uid token taskId category subcategory).
Local Abbreviation loop :=
  (Standalone.waitForCompletion_loop uid token taskId category subcategory).

(** Whatever the remote system answers, the loop logs some pending checks
    and one of the three tails. *)
Lemma standalone_loop_shape (n : nat) : ∀ (i : nat) (w : world),
  ∃ (k : nat) (tail : list event),
    (k ≤ n)%nat ∧
    log (loop n i env w).2 = log w ++ polling status_request i k ++ tail ∧
    poll_tail status_request result_request tail ∧
    (tail = [] → k = n ∧ (loop n i env w).1 = Throw "Task timed out") ∧
    (tail ≠ [] → (k < n)%nat).
Proof.
  induction n as [|n IH]; intros i w.
  - exists 0%nat, []. simpl. rewrite app_nil_r.
    split; [lia|]. split; [done|]. split; [by left|]. split; [done|]. by intros [].
  - rewrite standalone_iteration. cbv zeta.
    assert (∀ e : string,
      ∃ (k : nat) (tail : list event),
        (k ≤ S n)%nat ∧
        log (Throw (A:=value) e, advance w 1 [Fetch status_request]).2
          = log w ++ polling status_request i k ++ tail ∧
        poll_tail status_request result_request tail ∧
        (tail = [] → k = S n ∧ (Throw (A:=value) e, advance w 1 [Fetch status_request]).1
                               = Throw "Task timed out") ∧
        (tail ≠ [] → (k < S n)%nat)) as Hlast.
    { intros e. exists 0%nat, [Fetch status_request]. simpl.
      split; [lia|]. split; [done|]. split; [right; by left|]. split; [done|lia]. }
    destruct (standalone_outcome (env (calls w))) as [v|e]; [|apply Hlast].
    destruct (member v "data"); [|apply Hlast].
    destruct (is_string (task_status v) "completed").
    { exists 0%nat, [Fetch status_request; Fetch result_request]. simpl.
      split; [lia|]. split; [done|]. split; [right; by right|]. split; [done|lia]. }
    destruct (is_string (task_status v) "failed"); [apply Hlast|].
    destruct (IH (S i) (advance w 1 [Fetch status_request; Sleep (delay i)]))
      as (k & tail & Hk & Hlog & Htail & Hend & Hlt).
    exists (S k), tail. split; [lia|]. split.
    { rewrite Hlog. simpl log. rewrite <- app_assoc. f_equal. }
    split; [done|]. split.
    + intros Hnil. destruct (Hend Hnil) as [-> Hres]. done.
    + intros Hne. specialize (Hlt Hne). lia.
Qed.

End StandaloneShape.

Section WorkerShape.

Context (taskId : value) (category subcategory userId accessToken : jsval).
Context (env : remote).

Local Abbreviation status_request :=
  (worker_status_request taskId category subcategory userId accessToken).
Local Abbreviation result_request :=
  (worker_result_request taskId category subcategory userId accessToken).
Local Abbreviation loop :=
  (Worker.waitForCompletion_loop taskId category subcategory userId accessToken).

Lemma worker_loop_shape (n : nat) : ∀ (i : nat) (w : world),
  ∃ (k : nat) (tail : list event),
    (k ≤ n)%nat ∧
    log (loop n i env w).2 = log w ++ polling status_request i k ++ tail ∧
    poll_tail status_request result_request tail ∧
    (tail = [] → k = n ∧ (loop n i env w).1 = Throw "Task timed out") ∧
    (tail ≠ [] → (k < n)%nat).
Proof.
  induction n as [|n IH]; intros i w.
  - exists 0%nat, []. simpl. rewrite app_nil_r.
    split; [lia|]. split; [done|]. split; [by left|]. split; [done|]. by intros [].
  - rewrite worker_iteration. cbv zeta.
    assert (∀ e : string,
      ∃ (k : nat) (tail : list event),
        (k ≤ S n)%nat ∧
        log (Throw (A:=value) e, advance w 1 [Fetch status_request]).2
          = log w ++ polling status_request i k ++ tail ∧
        poll_tail status_request result_request tail ∧
        (tail = [] → k = S n ∧ (Throw (A:=value) e, advance w 1 [Fetch status_request]).1
                               = Throw "Task timed out") ∧
        (tail ≠ [] → (k < S n)%nat)) as Hlast.
    { intros e. exists 0%nat, [Fetch status_request]. simpl.
      split; [lia|]. split; [done|]. split; [right; by left|]. split; [done|lia]. }
    destruct (negb (Js.truthy (worker_outcome (env (calls w))))); [apply Hlast|].
    destruct (is_string (task_status _) "completed").
    { exists 0%nat, [Fetch status_request; Fetch result_request]. simpl.
      split; [lia|]. split; [done|]. split; [right; by right|]. split; [done|lia]. }
    destruct (is_string (task_status _) "failed"); [apply Hlast|].
    destruct (IH (S i) (advance w 1 [Fetch status_request; Sleep (delay i)]))
      as (k & tail & Hk & Hlog & Htail & Hend & Hlt).
    exists (S k), tail. split; [lia|]. split.
    { rewrite Hlog. simpl log. rewrite <- app_assoc. f_equal. }
    split; [done|]. split.
    + intros Hnil. destruct (Hend Hnil) as [-> Hres]. done.
    + intros Hne. specialize (Hlt Hne). lia.
Qed.

End WorkerShape.

Lemma poll_tail_sleeps (sreq rreq : request) (tail : list event) :
  poll_tail sreq rreq tail → sleeps tail = [].
Proof. by intros [->|[->| ->]]. Qed.

Lemma backoff_total_bound (k : nat) :
  (k ≤ 60)%nat → (backoff_total k <= 576250)%Q.
Proof.
  intros Hk.
  assert (forallb (λ j, Qle_bool (backoff_total j) 576250) (seq 0 61) = true) as Hall
    by (vm_compute; reflexivity).
  rewrite forallb_forall in Hall. apply Qle_bool_iff, Hall.
  apply list_elem_of_In, elem_of_seq. lia.
Qed.

Lemma backoff_total_sixty : (backoff_total 60 == 576250)%Q.
Proof. vm_compute. reflexivity. Qed.

Lemma total_sleep_polling (sreq rreq : request) (k : nat) (tail : list event) :
  poll_tail sreq rreq tail →
  total_sleep (polling sreq 0 k ++ tail) = backoff_total k.
Proof.
  intros Htail. unfold total_sleep, backoff_total.
  by rewrite sleeps_app, sleeps_polling, (poll_tail_sleeps _ _ _ Htail), app_nil_r.
Qed.


(** X2.  With the sixty attempts the handlers use, a poll never sleeps more
    than 576250 ms in total, whatever the remote system answers; a poll whose
    sixty checks all observe a non-terminal status sleeps exactly that long,
    and its last event is the sleep after the sixtieth check: the time-out
    is raised only after that sleep. *)
Theorem poll_sleeps_at_most :
  (∀ uid token taskId category subcategory env,
     let r := run (Standalone.waitForCompletion uid token taskId category subcategory 60) env in
     (total_sleep (log r.2) <= 576250)%Q ∧
     (pending_checks not_null env 0 60 →
      (total_sleep (log r.2) == 576250)%Q ∧ last (log r.2) = Some (Sleep (delay 59)))) ∧
  (∀ taskId category subcategory userId accessToken env,
     let r := run (Worker.waitForCompletion taskId category subcategory
                     userId accessToken 60) env in
     (total_sleep (log r.2) <= 576250)%Q ∧
     (pending_checks Js.truthy env 0 60 →
      (total_sleep (log r.2) == 576250)%Q ∧ last (log r.2) = Some (Sleep (delay 59)))).
Proof.
  split.
  - intros uid token taskId category subcategory env r. subst r. split.
    + destruct (standalone_loop_shape uid token taskId category subcategory env 60 0 initial)
        as (k & tail & Hk & Hlog & Htail & _).
      change (Standalone.waitForCompletion_loop uid token taskId category subcategory 60 0
                env initial)
        with (run (Standalone.waitForCompletion uid token taskId category subcategory 60) env)
        in *.
      rewrite Hlog. cbn [log initial app].
      rewrite (total_sleep_polling _ _ _ _ Htail). by apply backoff_total_bound.
    + intros Hp. rewrite (standalone_timeout _ _ _ _ _ _ _ Hp).
      cbn [snd advance log initial app]. split.
      * rewrite <- (app_nil_r (polling _ 0 60)).
        rewrite (total_sleep_polling _ (standalone_result_request uid token taskId
                                          category subcategory) 60 []) by (by left).
        apply backoff_total_sixty.
      * reflexivity.
  - intros taskId category subcategory userId accessToken env r. subst r. split.
    + destruct (worker_loop_shape taskId category subcategory userId accessToken env 60 0
                  initial) as (k & tail & Hk & Hlog & Htail & _).
      change (Worker.waitForCompletion_loop taskId category subcategory userId accessToken
                60 0 env initial)
        with (run (Worker.waitForCompletion taskId category subcategory userId accessToken
                     60) env) in *.
      rewrite Hlog. cbn [log initial app].
      rewrite (total_sleep_polling _ _ _ _ Htail). by apply backoff_total_bound.
    + intros Hp. rewrite (worker_timeout _ _ _ _ _ _ _ Hp).
      cbn [snd advance log initial app]. split.
      * rewrite <- (app_nil_r (polling _ 0 60)).
        rewrite (total_sleep_polling _ (worker_result_request taskId category subcategory
                                          userId accessToken) 60 []) by (by left).
        apply backoff_total_sixty.
      * reflexivity.
Qed.

(** X2, instance: a remote system that always answers ["pending"]. *)
Lemma poll_sleeps_at_most_witness :
  (total_sleep (log (run (Standalone.waitForCompletion "user" "secret" (JStr "task-1")
                            (Some (JStr "imagegen")) (Some (JStr "flux_dev")) 60)
                       env_pending).2) == 576250)%Q ∧
  (total_sleep (log (run (Worker.waitForCompletion (JStr "task-1")
                            (Some (JStr "imagegen")) (Some (JStr "flux_dev"))
                            (Some (JStr "user")) (Some (JStr "secret")) 60)
                       env_pending).2) == 576250)%Q.
Proof.
  destruct poll_sleeps_at_most as [Hs Hw]. split.
  - apply (Hs "user" "secret" (JStr "task-1") (Some (JStr "imagegen"))
             (Some (JStr "flux_dev")) env_pending).
    apply env_pending_checks.
  - apply (Hw (JStr "task-1") (Some (JStr "imagegen")) (Some (JStr "flux_dev"))
             (Some (JStr "user")) (Some (JStr "secret")) env_pending).
    apply env_pending_checks.
Defined.

(** ** The requests of a tool call *)

(** A call of the stdio server's handler with arguments and a tool name it
    accepts, by what the response to [/generate] holds. *)
Lemma standalone_call_tool_run (uid token name : string) (toolArgs : value) (env : remote) :
  Js.truthy toolArgs = true →
  Js.typeof_object toolArgs = true →
  Js.startsWith name "generate_" = true →
  run (Standalone.call_tool uid token name (Some toolArgs)) env =
  let category := (route name toolArgs).1.1 in
  let subcategory := (route name toolArgs).1.2 in
  let w1 := advance initial 1
              [Fetch (Standalone.api_request uid token "/generate"
                        (route name toolArgs).2)] in
  let missing :=
    (Ret (Standalone.failure "No task ID returned from generate endpoint"), w1) in
  match standalone_outcome (env 0%nat) with
  | Throw e => (Ret (Standalone.failure e), w1)
  | Ret generateData =>
      match task_id generateData with
      | Some id =>
          if Js.truthy id then
            match Standalone.waitForCompletion_loop uid token id category
                    (Some (JStr subcategory)) 60 0 env w1 with
            | (Ret result, w') => (Ret (Standalone.success result), w')
            | (Throw e, w') => (Ret (Standalone.failure e), w')
            end
          else missing
      | None => missing
      end
  end.
Proof.
  intros Htruthy Hobject Hname.
  unfold run, Standalone.call_tool. rewrite try_catch_run.
  unfold Standalone.call_tool_body. rewrite Htruthy, Hobject, Hname.
  cbn [negb orb]. unfold route.
  destruct (Standalone.parse_name name) as [category sub0].
  destruct (Standalone.clean toolArgs sub0) as [sub params].
  cbn [fst snd].
  unfold mbind at 1, M_bind at 1. rewrite callGenVRAPI_run. cbn [calls].
  change (advance {| calls := 0; log := [] |} 1) with (advance initial 1).
  destruct (standalone_outcome (env 0%nat)) as [generateData|e]; [|reflexivity].
  fold (task_id generateData).
  destruct (task_id generateData) as [id|]; [|reflexivity].
  destruct (Js.truthy id); [|reflexivity].
  unfold mbind, M_bind, Standalone.waitForCompletion.
  by destruct (Standalone.waitForCompletion_loop _ _ _ _ _ _ _ _ _) as [[result|e] w'].
Qed.

Lemma standalone_outcome_payload (r : http_response) (v : value) :
  standalone_outcome r = Ret v → payload r = Some v.
Proof.
  destruct r as [e|rep]; simpl; [done|].
  destruct (ok rep); [|done]. by intros ->.
Qed.

(** The log of a call the handler accepts: the [/generate] request,
    followed by a poll when the response holds a truthy task id. *)
Lemma standalone_call_tool_accepted (uid token name : string) (toolArgs : value)
    (env : remote) :
  Js.truthy toolArgs = true →
  Js.typeof_object toolArgs = true →
  Js.startsWith name "generate_" = true →
  let r := run (Standalone.call_tool uid token name (Some toolArgs)) env in
  ∃ rest,
    log r.2 = Fetch (Standalone.api_request uid token "/generate" (route name toolArgs).2)
              :: rest ∧
    (rest = [] ∨
     ∃ generateData id (k : nat) tail,
       payload (env 0%nat) = Some generateData ∧
       task_id generateData = Some id ∧
       Js.truthy id = true ∧
       (k ≤ 60)%nat ∧
       rest = polling (standalone_status_request uid token id (route name toolArgs).1.1
                         (Some (JStr (route name toolArgs).1.2))) 0 k ++ tail ∧
       poll_tail
         (standalone_status_request uid token id (route name toolArgs).1.1
            (Some (JStr (route name toolArgs).1.2)))
         (standalone_result_request uid token id (route name toolArgs).1.1
            (Some (JStr (route name toolArgs).1.2)))
         tail ∧
       (tail ≠ [] → (k < 60)%nat)).
Proof.
  intros Htruthy Hobject Hname r. subst r.
  rewrite (standalone_call_tool_run _ _ _ _ _ Htruthy Hobject Hname). cbv zeta.
  set (greq := Standalone.api_request uid token "/generate" _).
  destruct (standalone_outcome (env 0%nat)) as [generateData|e] eqn:Hout;
    [|exists []; split; [reflexivity|by left]].
  apply standalone_outcome_payload in Hout.
  destruct (task_id generateData) as [id|] eqn:Hid;
    [|exists []; split; [reflexivity|by left]].
  destruct (Js.truthy id) eqn:Hidt; [|exists []; split; [reflexivity|by left]].
  destruct (standalone_loop_shape uid token id (route name toolArgs).1.1
              (Some (JStr (route name toolArgs).1.2)) env 60 0
              (advance initial 1 [Fetch greq]))
    as (k & tail & Hk & Hlog & Htail & _ & Hlt).
  eexists. split.
  - destruct (Standalone.waitForCompletion_loop _ _ _ _ _ _ _ _ _) as [[result|e] w'];
      cbn in Hlog |- *; by rewrite Hlog.
  - right. by exists generateData, id, k, tail.
Qed.

(** The log of a call of the stdio server's handler: nothing when the
    arguments or the tool name are refused, else that of an accepted
    call. *)
Lemma standalone_call_tool_shape (uid token name : string) (args : jsval) (env : remote) :
  let r := run (Standalone.call_tool uid token name args) env in
  log r.2 = [] ∨
  ∃ toolArgs rest,
    args = Some toolArgs ∧
    Js.startsWith name "generate_" = true ∧
    log r.2 = Fetch (Standalone.api_request uid token "/generate" (route name toolArgs).2)
              :: rest ∧
    (rest = [] ∨
     ∃ generateData id (k : nat) tail,
       payload (env 0%nat) = Some generateData ∧
       task_id generateData = Some id ∧
       Js.truthy id = true ∧
       (k ≤ 60)%nat ∧
       rest = polling (standalone_status_request uid token id (route name toolArgs).1.1
                         (Some (JStr (route name toolArgs).1.2))) 0 k ++ tail ∧
       poll_tail
         (standalone_status_request uid token id (route name toolArgs).1.1
            (Some (JStr (route name toolArgs).1.2)))
         (standalone_result_request uid token id (route name toolArgs).1.1
            (Some (JStr (route name toolArgs).1.2)))
         tail ∧
       (tail ≠ [] → (k < 60)%nat)).
Proof.
  intros r. subst r.
  destruct args as [toolArgs|]; [|by left].
  destruct (Js.truthy toolArgs) eqn:Htruthy;
    [|left; unfold run, Standalone.call_tool, Standalone.call_tool_body;
      rewrite try_catch_run; by rewrite Htruthy].
  destruct (Js.typeof_object toolArgs) eqn:Hobject;
    [|left; unfold run, Standalone.call_tool, Standalone.call_tool_body;
      rewrite try_catch_run; by rewrite Htruthy, Hobject].
  destruct (Js.startsWith name "generate_") eqn:Hname;
    [|left; unfold run, Standalone.call_tool, Standalone.call_tool_body;
      rewrite try_catch_run; by rewrite Htruthy, Hobject, Hname].
  right.
  destruct (standalone_call_tool_accepted uid token name toolArgs env
              Htruthy Hobject Hname) as (rest & Hlog & Hrest).
  by exists toolArgs, rest.
Qed.

(** A call of a Worker tool, by what the response to [/generate] holds. *)
Lemma worker_call_tool_run (category subcategory : jsval) (args : gmap string value)
    (env : remote) :
  run (Worker.call_tool category subcategory args) env =
  let userId := args !! "userId" in
  let accessToken := args !! "accessToken" in
  let w1 := advance initial 1
              [Fetch (Worker.api_request "/generate"
                        (Worker.generate_body category subcategory args)
                        userId accessToken)] in
  let missing := (Ret (Worker.failure "No task ID returned from generate endpoint"), w1) in
  match task_id (worker_outcome (env 0%nat)) with
  | Some id =>
      if Js.truthy id then
        match Worker.waitForCompletion_loop id category subcategory userId accessToken
                60 0 env w1 with
        | (Ret result, w') => (Ret (Worker.success result), w')
        | (Throw e, w') => (Ret (Worker.failure e), w')
        end
      else missing
  | None => missing
  end.
Proof.
  unfold run, Worker.call_tool. rewrite try_catch_run.
  unfold Worker.call_tool_body. cbv zeta.
  unfold mbind at 1, M_bind at 1. rewrite makeGenVRRequest_run.
  cbn [calls]. fold (task_id (worker_outcome (env 0%nat))).
  destruct (task_id (worker_outcome (env 0%nat))) as [id|]; [|reflexivity].
  destruct (Js.truthy id); [|reflexivity].
  unfold mbind, M_bind, Worker.waitForCompletion.
  change (advance {| calls := 0; log := [] |} 1) with (advance initial 1).
  by destruct (Worker.waitForCompletion_loop _ _ _ _ _ _ _ _ _) as [[result|e] w'].
Qed.

(** The log of a call of a Worker tool: the [/generate] request, followed
    by a poll when the response holds a truthy task id. *)
Lemma worker_call_tool_shape (category subcategory : jsval) (args : gmap string value)
    (env : remote) :
  let r := run (Worker.call_tool category subcategory args) env in
  let userId := args !! "userId" in
  let accessToken := args !! "accessToken" in
  ∃ rest,
    log r.2 = Fetch (Worker.api_request "/generate"
                       (Worker.generate_body category subcategory args)
                       userId accessToken) :: rest ∧
    ((rest = [] ∧
      Js.truthy_opt (task_id (worker_outcome (env 0%nat))) = false ∧
      r.1 = Ret (Worker.failure "No task ID returned from generate endpoint")) ∨
     ∃ id (k : nat) tail,
       task_id (worker_outcome (env 0%nat)) = Some id ∧
       Js.truthy id = true ∧
       (k ≤ 60)%nat ∧
       rest = polling (worker_status_request id category subcategory userId accessToken)
                0 k ++ tail ∧
       poll_tail
         (worker_status_request id category subcategory userId accessToken)
         (worker_result_request id category subcategory userId accessToken)
         tail ∧
       (tail ≠ [] → (k < 60)%nat)).
Proof.
  intros r userId accessToken. subst r.
  rewrite worker_call_tool_run. cbv zeta. fold userId accessToken.
  set (greq := Worker.api_request _ _ _ _).
  destruct (task_id (worker_outcome (env 0%nat))) as [id|] eqn:Hid.
  2:{ exists []. split; [reflexivity|]. left. repeat split; reflexivity. }
  destruct (Js.truthy id) eqn:Htruthy.
  2:{ exists []. split; [reflexivity|]. left. repeat split; try reflexivity.
      exact Htruthy. }
  destruct (worker_loop_shape id category subcategory userId accessToken env 60 0
              (advance initial 1 [Fetch greq]))
    as (k & tail & Hk & Hlog & Htail & _ & Hlt).
  exists (polling (worker_status_request id category subcategory userId accessToken) 0 k
          ++ tail).
  split.
  - destruct (Worker.waitForCompletion_loop _ _ _ _ _ _ _ _ _) as [[result|e] w'];
      cbn in Hlog |- *; by rewrite Hlog.
  - right. by exists id, k, tail.
Qed.

Lemma requests_polling_tail (sreq rreq : request) (k : nat) (tail : list event) :
  poll_tail sreq rreq tail →
  ∀ req, req ∈ requests (polling sreq 0 k ++ tail) → req = sreq ∨ req = rreq.
Proof.
  intros Htail req. rewrite requests_app, requests_polling, elem_of_app.
  intros [Hin|Hin]; [left; by eapply replicate_endpoint|].
  destruct Htail as [->|[->| ->]]; simpl in Hin.
  - by apply elem_of_nil in Hin.
  - apply list_elem_of_singleton in Hin. by left.
  - apply elem_of_cons in Hin as [->|Hin]; [by left|].
    apply list_elem_of_singleton in Hin. by right.
Qed.

(** X3.  Every request of a tool call carries the credentials the entry
    point is bound to.  In the stdio server the body's [uid] is the user id
    of the process and the bearer token is its access token, whatever the
    caller's arguments hold (a [uid] argument is overwritten).  In the
    Worker the body's [uid] is the caller's [userId] argument (no [uid] field
    is sent when there is none) and the bearer value is the caller's
    [accessToken] argument. *)
Theorem requests_carry_credentials :
  (∀ uid token name args env req,
     req ∈ requests (log (run (Standalone.call_tool uid token name args) env).2) →
     body req !! "uid" = Some (JStr uid) ∧ bearer req = Some (JStr token)) ∧
  (∀ category subcategory args env req,
     req ∈ requests (log (run (Worker.call_tool category subcategory args) env).2) →
     body req !! "uid" = args !! "userId" ∧ bearer req = args !! "accessToken").
Proof.
  split.
  - intros uid token name args env req.
    destruct (standalone_call_tool_shape uid token name args env)
      as [->|(toolArgs & rest & _ & _ & -> & Hrest)]; [by intros ?%elem_of_nil|].
    cbn [requests]. intros [->|Hin]%elem_of_cons.
    { split; [apply lookup_insert_eq|done]. }
    destruct Hrest as [->|(gd & id & k & tail & _ & _ & _ & _ & -> & Htail & _)];
      [by apply elem_of_nil in Hin|].
    destruct (requests_polling_tail _ _ _ _ Htail _ Hin) as [-> | ->];
      (split; [apply lookup_insert_eq|done]).
  - intros category subcategory args env req.
    destruct (worker_call_tool_shape category subcategory args env)
      as (rest & -> & Hrest).
    assert (∀ endpoint b,
      body (Worker.api_request endpoint b (args !! "userId") (args !! "accessToken"))
        !! "uid" = args !! "userId") as Huid.
    { intros endpoint b. unfold Worker.api_request. simpl.
      destruct (args !! "userId"); simpl;
        [apply lookup_insert_eq|apply lookup_delete_eq]. }
    cbn [requests]. intros [->|Hin]%elem_of_cons; [split; [apply Huid|done]|].
    destruct Hrest as [(-> & _)|(id & k & tail & _ & _ & _ & -> & Htail & _)];
      [by apply elem_of_nil in Hin|].
    destruct (requests_polling_tail _ _ _ _ Htail _ Hin) as [-> | ->];
      (split; [apply Huid|done]).
Qed.

(** X3, instance: the [/generate] request of a call whose arguments hold a
    [uid] of their own. *)
Lemma requests_carry_credentials_witness :
  body (Standalone.api_request "user" "secret" "/generate"
          (route "generate_imagegen_flux_dev"
             (JObj {[ "uid" := JStr "someone-else" ]})).2) !! "uid"
  = Some (JStr "user").
Proof.
  refine (proj1 (proj1 requests_carry_credentials "user" "secret"
                   "generate_imagegen_flux_dev"
                   (Some (JObj {[ "uid" := JStr "someone-else" ]})) env_job _ _)).
  vm_compute. left.
Defined.



(** ** Argument normalisation *)

Lemma unwrap_flat (o : gmap string value) :
  Standalone.is_object (o !! "parameters") = false → Standalone.unwrap o = o.
Proof.
  intros Hflat. unfold Standalone.unwrap.
  destruct (o !! "parameters"); [by rewrite Hflat|done].
Qed.

Lemma unwrap_wrapped (o : gmap string value) :
  Standalone.unwrap {[ "parameters" := JObj o ]} = o.
Proof. unfold Standalone.unwrap. by rewrite lookup_singleton_eq. Qed.

(** Cleaning touches the three keys it deletes only. *)
Lemma clean_other_key (toolArgs : value) (subcategory key : string) :
  key ≠ "model" → key ≠ "category_genvr" → key ≠ "subcategory_genvr" →
  (Standalone.clean toolArgs subcategory).2 !! key
  = Standalone.unwrap (Js.own toolArgs) !! key.
Proof.
  intros Hm Hc Hs. unfold Standalone.clean.
  destruct (Standalone.unwrap (Js.own toolArgs) !! "model") as [[]|];
    try destruct (_ && _); cbn [snd];
    rewrite ?lookup_delete_ne by done; done.
Qed.

Lemma api_request_other_key (uid token endpoint key : string) (b : gmap string value) :
  key ≠ "uid" → body (Standalone.api_request uid token endpoint b) !! key = b !! key.
Proof. intros Hne. simpl. by rewrite lookup_insert_ne. Qed.

Lemma task_body_category (taskId : value) (category subcategory : jsval) :
  task_body taskId category subcategory !! "category" = category.
Proof.
  unfold task_body. rewrite set_field_other by done.
  destruct category; simpl; [apply lookup_insert_eq|apply lookup_delete_eq].
Qed.

Lemma route_category (name : string) (toolArgs : value) :
  (route name toolArgs).1.1 = (Standalone.parse_name name).1.
Proof.
  unfold route. destruct (Standalone.parse_name name) as [category sub0].
  by destruct (Standalone.clean toolArgs sub0).
Qed.

Lemma route_body (name : string) (toolArgs : value) :
  (route name toolArgs).2
  = Standalone.unwrap (Standalone.clean toolArgs (Standalone.parse_name name).2).2
    ∪ Js.set_field "subcategory" (Some (JStr (route name toolArgs).1.2))
        (Js.set_field "category" (route name toolArgs).1.1 ∅).
Proof.
  unfold route. destruct (Standalone.parse_name name) as [category sub0].
  cbn [snd]. by destruct (Standalone.clean toolArgs sub0).
Qed.

(** The parameters of flat arguments stay flat when they are cleaned. *)
Lemma clean_flat (o : gmap string value) (subcategory : string) :
  Standalone.is_object (o !! "parameters") = false →
  Standalone.unwrap (Standalone.clean (JObj o) subcategory).2
  = (Standalone.clean (JObj o) subcategory).2.
Proof.
  intros Hflat. apply unwrap_flat.
  rewrite clean_other_key by done. simpl Js.own. by rewrite (unwrap_flat _ Hflat).
Qed.

(** X5.  A [category] field among the caller's (flat) arguments replaces
    the category parsed from the tool name in the body of the [/generate]
    request, because the arguments are spread after it; every later request
    of the call (status and fetch-result) still carries the category parsed
    from the tool name. *)
Theorem caller_category_overrides_submission
    (uid token name : string) (o : gmap string value) (v : value) (env : remote) :
  Js.startsWith name "generate_" = true →
  Standalone.is_object (o !! "parameters") = false →
  o !! "category" = Some v →
  ∃ submitted rest,
    requests (log (run (Standalone.call_tool uid token name (Some (JObj o))) env).2)
      = submitted :: rest ∧
    endpoint submitted = "/generate" ∧
    body submitted !! "category" = Some v ∧
    ∀ req, req ∈ rest → body req !! "category" = (Standalone.parse_name name).1.
Proof.
  intros Hname Hflat Hcat.
  destruct (standalone_call_tool_accepted uid token name (JObj o) env eq_refl eq_refl Hname)
    as (rest & -> & Hrest).
  eexists _, (requests rest). split; [reflexivity|]. split; [reflexivity|]. split.
  - rewrite api_request_other_key by done. rewrite route_body.
    apply lookup_union_Some_l.
    rewrite (clean_flat _ _ Hflat), clean_other_key by done.
    simpl Js.own. by rewrite (unwrap_flat _ Hflat).
  - intros req Hin.
    destruct Hrest as [->|(gd & id & k & tail & _ & _ & _ & _ & -> & Htail & _)];
      [by apply elem_of_nil in Hin|].
    rewrite <- (route_category name (JObj o)).
    destruct (requests_polling_tail _ _ _ _ Htail _ Hin) as [-> | ->];
      unfold standalone_status_request, standalone_result_request;
      rewrite api_request_other_key by done; apply task_body_category.
Qed.

(** X5, instance: a tool of category [imagegen] called with
    [category: "videogen"]. *)
Lemma caller_category_overrides_submission_witness :
  ∃ submitted rest,
    requests (log (run (Standalone.call_tool "user" "secret" "generate_imagegen_flux_dev"
                          (Some (JObj {[ "category" := JStr "videogen";
                                         "prompt" := JStr "a cat" ]}))) env_job).2)
      = submitted :: rest ∧
    body submitted !! "category" = Some (JStr "videogen") ∧
    ∀ req, req ∈ rest → body req !! "category" = Some (JStr "imagegen").
Proof.
  destruct (caller_category_overrides_submission "user" "secret"
              "generate_imagegen_flux_dev"
              {[ "category" := JStr "videogen"; "prompt" := JStr "a cat" ]}
              (JStr "videogen") env_job)
    as (submitted & rest & Hlog & _ & Hcat & Hrest).
  - reflexivity.
  - vm_compute. reflexivity.
  - vm_compute. reflexivity.
  - exists submitted, rest. split; [exact Hlog|]. split; [exact Hcat|]. exact Hrest.
Defined.

(** X6.  Wrapping flat arguments once in a ["parameters"] object changes
    nothing: the call returns the same result and sends the same
    requests. *)
Theorem single_wrapping_is_transparent
    (uid token name : string) (o : gmap string value) (env : remote) :
  Standalone.is_object (o !! "parameters") = false →
  run (Standalone.call_tool uid token name (Some (JObj {[ "parameters" := JObj o ]}))) env
  = run (Standalone.call_tool uid token name (Some (JObj o))) env.
Proof.
  intros Hflat.
  assert (∀ s, Standalone.clean (JObj {[ "parameters" := JObj o ]}) s
               = Standalone.clean (JObj o) s) as Hclean.
  { intros s. unfold Standalone.clean. simpl Js.own.
    by rewrite unwrap_wrapped, (unwrap_flat _ Hflat). }
  unfold run, Standalone.call_tool, Standalone.call_tool_body.
  cbn [Js.truthy Js.typeof_object negb orb].
  destruct (Js.startsWith name "generate_"); [|reflexivity].
  destruct (Standalone.parse_name name) as [category sub0].
  by rewrite Hclean.
Qed.

(** X6, instance. *)
Lemma single_wrapping_is_transparent_witness :
  run (Standalone.call_tool "user" "secret" "generate_imagegen_flux_dev"
         (Some (JObj {[ "parameters" := JObj {[ "prompt" := JStr "a cat" ]} ]}))) env_job
  = run (Standalone.call_tool "user" "secret" "generate_imagegen_flux_dev"
           (Some (JObj {[ "prompt" := JStr "a cat" ]}))) env_job.
Proof.
  apply (single_wrapping_is_transparent "user" "secret" "generate_imagegen_flux_dev"
           {[ "prompt" := JStr "a cat" ]} env_job).
  vm_compute. reflexivity.
Defined.









(** ** Failures of the submission *)

(** X8.  When the [/generate] request fails at the transport level, the
    tool call ends after that one request with an error result.  The stdio
    server reports the transport error (the network error, or the HTTP
    status and body); the Worker reports ["No task ID returned from generate
    endpoint"], the failure itself having been turned into [null]. *)
Theorem submission_failure_is_reported :
  (∀ uid token name toolArgs env,
     Js.truthy toolArgs = true →
     Js.typeof_object toolArgs = true →
     Js.startsWith name "generate_" = true →
     transport_failure (env 0%nat) = true →
     run (Standalone.call_tool uid token name (Some toolArgs)) env
     = (Ret (Standalone.failure (transport_error (env 0%nat))),
        advance initial 1
          [Fetch (Standalone.api_request uid token "/generate" (route name toolArgs).2)])) ∧
  (∀ category subcategory args env,
     transport_failure (env 0%nat) = true →
     run (Worker.call_tool category subcategory args) env
     = (Ret (Worker.failure "No task ID returned from generate endpoint"),
        advance initial 1
          [Fetch (Worker.api_request "/generate"
                    (Worker.generate_body category subcategory args)
                    (args !! "userId") (args !! "accessToken"))])).
Proof.
  split.
  - intros uid token name toolArgs env Htruthy Hobject Hname Hfail.
    rewrite (standalone_call_tool_run _ _ _ _ _ Htruthy Hobject Hname). cbv zeta.
    by rewrite (standalone_outcome_failure _ Hfail).
  - intros category subcategory args env Hfail.
    rewrite worker_call_tool_run. cbv zeta.
    unfold worker_outcome. by rewrite (transport_failure_payload _ Hfail).
Qed.

(** X8, instance: a server error on [/generate]. *)
Lemma submission_failure_is_reported_witness :
  (run (Standalone.call_tool "user" "secret" "generate_imagegen_flux_dev"
          (Some (JObj {[ "prompt" := JStr "a cat" ]}))) (λ _, error_reply)).1
  = Ret (Standalone.failure "GenVR API error: 500 Internal Server Error - boom") ∧
  (run (Worker.call_tool (Some (JStr "imagegen")) (Some (JStr "flux_dev")) worker_args)
     (λ _, error_reply)).1
  = Ret (Worker.failure "No task ID returned from generate endpoint").
Proof.
  destruct submission_failure_is_reported as [Hs Hw]. split.
  - rewrite (Hs "user" "secret" "generate_imagegen_flux_dev"
               (JObj {[ "prompt" := JStr "a cat" ]}) (λ _, error_reply)
               eq_refl eq_refl eq_refl eq_refl).
    reflexivity.
  - rewrite (Hw (Some (JStr "imagegen")) (Some (JStr "flux_dev")) worker_args
               (λ _, error_reply) eq_refl).
    reflexivity.
Defined.

(** X9.  When the response to [/generate] parses but holds no truthy
    [data.id] (no [data], no [id], or an [id] such as [0], [""] or [null]),
    the tool call ends after that one request with the error ["No task ID
    returned from generate endpoint"]: nothing is polled. *)
Theorem missing_task_id_is_an_error :
  (∀ uid token name toolArgs env generateData,
     Js.truthy toolArgs = true →
     Js.typeof_object toolArgs = true →
     Js.startsWith name "generate_" = true →
     payload (env 0%nat) = Some generateData →
     Js.truthy_opt (task_id generateData) = false →
     run (Standalone.call_tool uid token name (Some toolArgs)) env
     = (Ret (Standalone.failure "No task ID returned from generate endpoint"),
        advance initial 1
          [Fetch (Standalone.api_request uid token "/generate" (route name toolArgs).2)])) ∧
  (∀ category subcategory args env generateData,
     payload (env 0%nat) = Some generateData →
     Js.truthy_opt (task_id generateData) = false →
     run (Worker.call_tool category subcategory args) env
     = (Ret (Worker.failure "No task ID returned from generate endpoint"),
        advance initial 1
          [Fetch (Worker.api_request "/generate"
                    (Worker.generate_body category subcategory args)
                    (args !! "userId") (args !! "accessToken"))])).
Proof.
  split.
  - intros uid token name toolArgs env gd Htruthy Hobject Hname Hpay Hid.
    rewrite (standalone_call_tool_run _ _ _ _ _ Htruthy Hobject Hname). cbv zeta.
    rewrite (payload_standalone _ _ Hpay).
    destruct (task_id gd) as [id|]; [|done]. simpl in Hid. by rewrite Hid.
  - intros category subcategory args env gd Hpay Hid.
    rewrite worker_call_tool_run. cbv zeta.
    rewrite (payload_worker _ _ Hpay).
    destruct (task_id gd) as [id|]; [|done]. simpl in Hid. by rewrite Hid.
Qed.

(** X9, instance: the response holds the task id [""]. *)
Lemma missing_task_id_is_an_error_witness :
  (run (Standalone.call_tool "user" "secret" "generate_imagegen_flux_dev"
          (Some (JObj {[ "prompt" := JStr "a cat" ]}))) env_empty_id).1
  = Ret (Standalone.failure "No task ID returned from generate endpoint") ∧
  (run (Worker.call_tool (Some (JStr "imagegen")) (Some (JStr "flux_dev")) worker_args)
     env_empty_id).1
  = Ret (Worker.failure "No task ID returned from generate endpoint").
Proof.
  destruct missing_task_id_is_an_error as [Hs Hw]. split.
  - rewrite (Hs "user" "secret" "generate_imagegen_flux_dev"
               (JObj {[ "prompt" := JStr "a cat" ]}) env_empty_id
               (JObj {[ "data" := JObj {[ "id" := JStr "" ]} ]})
               eq_refl eq_refl eq_refl eq_refl eq_refl).
    reflexivity.
  - rewrite (Hw (Some (JStr "imagegen")) (Some (JStr "flux_dev")) worker_args env_empty_id
               (JObj {[ "data" := JObj {[ "id" := JStr "" ]} ]}) eq_refl eq_refl).
    reflexivity.
Defined.

(** ** The translated contract *)

(** One call of the callback either skips the entry or adds its definition,
    and then may add its key to the required names. *)
Lemma translate_entry_step (schema : value) (ps : gmap string value) (rs : list string)
    (key : string) (prop : value) (acc1 : gmap string value * list string) :
  Standalone.translate_entry schema (ps, rs) (key, prop) = Ret acc1 →
  (acc1 = (ps, rs) ∧
   (Standalone.hidden prop = true ∨ Standalone.internal_field key = true)) ∨
  (Standalone.hidden prop = false ∧
   Standalone.internal_field key = false ∧
   acc1.1 = <[key := JObj (Standalone.property_definition key prop)]> ps ∧
   (acc1.2 = rs ∨
    (acc1.2 = rs ++ [key] ∧
     Standalone.required_includes (Js.get schema "required") key = Ret true))).
Proof.
  unfold Standalone.translate_entry, Standalone.hidden.
  destruct (member prop "display") as [d|] eqn:Hd; [|done].
  apply member_ret in Hd. subst d.
  destruct (is_string (Js.get prop "display") "hidden") eqn:Hh.
  { intros [= <-]. left. split; [done|by left]. }
  destruct (Standalone.internal_field key) eqn:Hi.
  { intros [= <-]. left. split; [done|by right]. }
  destruct (Standalone.required_includes _ _) as [[]|]; [| |done];
    intros [= <-]; right; repeat split; auto.
Qed.

(** The invariant of the loop: the definitions only grow, every required
    name has a definition and comes from the entries, without repetition. *)
Lemma translate_entries_required (schema : value) (l : list (string * value)) :
  ∀ acc acc',
    NoDup l.*1 →
    for_each (Standalone.translate_entry schema) acc l = Ret acc' →
    (∀ key, is_Some (acc.1 !! key) → is_Some (acc'.1 !! key)) ∧
    (∀ key, key ∈ acc'.2 →
       key ∈ acc.2 ∨
       (key ∈ l.*1 ∧ is_Some (acc'.1 !! key) ∧
        Standalone.required_includes (Js.get schema "required") key = Ret true)) ∧
    (NoDup acc.2 → (∀ key, key ∈ acc.2 → key ∉ l.*1) → NoDup acc'.2).
Proof.
  induction l as [|[k prop] l IH]; intros [ps rs] acc' Hnd Hloop;
    cbn [for_each] in Hloop.
  - injection Hloop as <-. split; [done|]. split; [by left|done].
  - destruct (Standalone.translate_entry schema (ps, rs) (k, prop)) as [acc1|] eqn:Hstep;
      [|done].
    rewrite fmap_cons in Hnd. apply NoDup_cons in Hnd as [Hk Hnd].
    destruct (IH acc1 acc' Hnd Hloop) as (Hgrow & Hreq & Hdup).
    apply translate_entry_step in Hstep.
    assert (∀ key, is_Some (ps !! key) → is_Some (acc1.1 !! key)) as Hgrow1.
    { intros key Hkey.
      destruct Hstep as [[-> _]|(_ & _ & -> & _)]; [done|].
      destruct (decide (k = key)) as [->|Hne];
        [rewrite lookup_insert_eq; by eexists|by rewrite lookup_insert_ne]. }
    assert (∀ key, key ∈ acc1.2 →
              key ∈ rs ∨ (key = k ∧ is_Some (acc1.1 !! key) ∧
                          Standalone.required_includes (Js.get schema "required") key
                          = Ret true)) as Hreq1.
    { intros key Hkey.
      destruct Hstep as [[-> _]|(_ & _ & Hps & [Hrs|[Hrs Hinc]])]; [by left| |].
      - rewrite Hrs in Hkey. by left.
      - rewrite Hrs in Hkey. apply elem_of_app in Hkey as [Hkey|Hkey]; [by left|].
        apply list_elem_of_singleton in Hkey as ->. right.
        split; [done|]. split; [|done]. rewrite Hps, lookup_insert_eq. by eexists. }
    split; [|split].
    + intros key Hkey. by apply Hgrow, Hgrow1.
    + intros key Hkey. destruct (Hreq key Hkey) as [Hin|(Hin & Hsome & Hinc)].
      * destruct (Hreq1 key Hin) as [Hrs|(-> & Hsome & Hinc)]; [by left|].
        right. split; [rewrite fmap_cons; left|]. split; [by apply Hgrow|done].
      * right. split; [rewrite fmap_cons; by right|done].
    + intros Hnd0 Hfresh. apply Hdup.
      * destruct Hstep as [[-> _]|(_ & _ & _ & [-> |[-> _]])]; [done|done|].
        apply NoDup_app. split; [done|]. split; [|apply NoDup_singleton].
        intros key Hkey ->%list_elem_of_singleton.
        apply (Hfresh k Hkey). rewrite fmap_cons. left.
      * intros key Hkey Hin. destruct (Hreq1 key Hkey) as [Hrs|(-> & _)]; [|done].
        apply (Hfresh key Hrs). rewrite fmap_cons. by right.
Qed.

Lemma entries_keys_nodup (props : value) : NoDup (Js.entries props).*1.
Proof. unfold Js.entries. apply NoDup_fst_map_to_list. Qed.

(** X10.  The required names of a translated contract are exposed
    properties: each one has a definition in the contract and is included in
    the raw schema's [required] member, and no name is listed twice.  A
    raw-required field that is hidden or internal is therefore not required
    by the contract. *)
Theorem required_names_are_exposed (cachedSchema : jsval) (contract : Standalone.input_schema) :
  Standalone.translate cachedSchema = Ret contract →
  NoDup (Standalone.required contract) ∧
  ∀ key, key ∈ Standalone.required contract →
    is_Some (Standalone.properties contract !! key) ∧
    ∃ schema props,
      Standalone.cached_properties cachedSchema = Some (schema, props) ∧
      Standalone.required_includes (Js.get schema "required") key = Ret true.
Proof.
  unfold Standalone.translate.
  destruct (Standalone.cached_properties cachedSchema) as [[schema props]|] eqn:Hc.
  - destruct (for_each _ _ _) as [[ps rs]|] eqn:Hloop; [|done].
    intros [= <-]. simpl.
    destruct (translate_entries_required schema _ _ _ (entries_keys_nodup props) Hloop)
      as (_ & Hreq & Hdup).
    split; [apply Hdup; [apply NoDup_nil_2|by intros ? ?%elem_of_nil]|].
    intros key Hkey. destruct (Hreq key Hkey) as [Hin|(_ & Hsome & Hinc)];
      [by apply elem_of_nil in Hin|].
    split; [done|]. by exists schema, props.
  - intros [= <-]. simpl. split; [apply NoDup_nil_2|]. by intros ? ?%elem_of_nil.
Qed.

(** X10, instance: the sample schema, whose only required name is the
    visible [prompt]. *)
Lemma required_names_are_exposed_witness :
  ∃ contract,
    Standalone.translate (Some sample_cached_schema) = Ret contract ∧
    NoDup (Standalone.required contract) ∧
    ∀ key, key ∈ Standalone.required contract →
      is_Some (Standalone.properties contract !! key).
Proof.
  eexists. split; [vm_compute; reflexivity|].
  match goal with |- context [Standalone.required ?c] =>
    destruct (required_names_are_exposed (Some sample_cached_schema) c) as [Hnd Hreq]
  end; [vm_compute; reflexivity|].
  split; [exact Hnd|]. intros key Hkey. exact (proj1 (Hreq key Hkey)).
Defined.

(** Entries after an entry's own do not touch its definition, and every
    visible entry gets one. *)
Lemma translate_entries_complete (schema : value) (l : list (string * value)) :
  ∀ acc acc',
    NoDup l.*1 →
    for_each (Standalone.translate_entry schema) acc l = Ret acc' →
    (∀ key, key ∉ l.*1 → acc'.1 !! key = acc.1 !! key) ∧
    (∀ key prop, (key, prop) ∈ l →
       Standalone.hidden prop = false →
       Standalone.internal_field key = false →
       acc'.1 !! key = Some (JObj (Standalone.property_definition key prop))).
Proof.
  induction l as [|[k p] l IH]; intros [ps rs] acc' Hnd Hloop;
    cbn [for_each] in Hloop.
  - injection Hloop as <-. split; [done|]. by intros ? ? ?%elem_of_nil.
  - destruct (Standalone.translate_entry schema (ps, rs) (k, p)) as [acc1|] eqn:Hstep;
      [|done].
    rewrite fmap_cons in Hnd. apply NoDup_cons in Hnd as [Hk Hnd].
    destruct (IH acc1 acc' Hnd Hloop) as (Hframe & Hall).
    apply translate_entry_step in Hstep. split.
    + intros key Hkey. rewrite fmap_cons in Hkey.
      apply not_elem_of_cons in Hkey as [Hne Hkey].
      rewrite (Hframe key Hkey).
      destruct Hstep as [[-> _]|(_ & _ & -> & _)]; [done|].
      by rewrite lookup_insert_ne.
    + intros key prop Hin Hh Hi. apply elem_of_cons in Hin as [[= -> ->]|Hin].
      * rewrite (Hframe k Hk).
        destruct Hstep as [[_ [Hh'|Hi']]|(_ & _ & -> & _)]; [congruence|congruence|].
        apply lookup_insert_eq.
      * by apply Hall.
Qed.

Lemma copy_defined_other (prop : value) (k k' : string) (d : gmap string value) :
  k ≠ k' → Standalone.copy_defined prop k d !! k' = d !! k'.
Proof.
  intros Hne. unfold Standalone.copy_defined.
  destruct (Js.get prop k); [by rewrite lookup_insert_ne|done].
Qed.

Lemma copy_defined_same (prop : value) (k : string) (d : gmap string value) :
  d !! k = None → Standalone.copy_defined prop k d !! k = Js.get prop k.
Proof.
  intros Hd. unfold Standalone.copy_defined.
  destruct (Js.get prop k); [apply lookup_insert_eq|done].
Qed.

(** The fields of a property definition that do not depend on [enum] and
    [items]. *)
Lemma property_definition_fields (key : string) (prop : value) :
  let def := Standalone.property_definition key prop in
  def !! "type" = Js.or_else (Js.get prop "type") (Some (JStr "string")) ∧
  def !! "description"
    = Js.or_else (Js.get prop "description") (Some (JStr ("Parameter: " +:+ key))) ∧
  def !! "default" = Js.get prop "default" ∧
  def !! "minimum" = Js.get prop "minimum" ∧
  def !! "maximum" = Js.get prop "maximum" ∧
  def !! "maxItems" = Js.get prop "maxItems".
Proof.
  intros def. subst def. unfold Standalone.property_definition. cbv zeta.
  set (base := Js.set_field "description" _ (Js.set_field "type" _ ∅)).
  set (withEnum := match Js.get prop "enum" with
                   | Some (JArr items) => <["enum" := JArr items]> base
                   | _ => base
                   end).
  assert (∀ k, k ≠ "enum" → withEnum !! k = base !! k) as Henum.
  { intros k Hk. subst withEnum.
    destruct (Js.get prop "enum") as [[]|]; try done. by rewrite lookup_insert_ne. }
  assert (base !! "type" = Js.or_else (Js.get prop "type") (Some (JStr "string")))
    as Htype.
  { subst base. rewrite set_field_other by done.
    unfold Js.or_else. destruct (Js.truthy_opt (Js.get prop "type")) eqn:Ht.
    - destruct (Js.get prop "type"); [apply lookup_insert_eq|done].
    - apply lookup_insert_eq. }
  assert (base !! "description"
          = Js.or_else (Js.get prop "description") (Some (JStr ("Parameter: " +:+ key))))
    as Hdescription.
  { subst base. unfold Js.or_else.
    destruct (Js.truthy_opt (Js.get prop "description")) eqn:Ht.
    - destruct (Js.get prop "description"); [apply lookup_insert_eq|done].
    - apply lookup_insert_eq. }
  assert (∀ k, k ≠ "type" → k ≠ "description" → base !! k = None) as Hbase.
  { intros k H1 H2. subst base. rewrite !set_field_other by done. apply lookup_empty. }
  assert (∀ k d, k ≠ "items" →
            (if is_string (Js.get prop "type") "array"
                && Js.truthy_opt (Js.get prop "items")
             then Js.set_field "items" (Js.get prop "items") d else d) !! k = d !! k)
    as Hitems.
  { intros k d Hk. destruct (_ && _); [by rewrite set_field_other|done]. }
  rewrite !Hitems by done.
  repeat split.
  - by rewrite !copy_defined_other, Henum by done.
  - by rewrite !copy_defined_other, Henum by done.
  - rewrite !copy_defined_other by done. apply copy_defined_same.
    rewrite Henum by done. by apply Hbase.
  - rewrite !copy_defined_other by done. apply copy_defined_same.
    rewrite copy_defined_other, Henum by done. by apply Hbase.
  - rewrite !copy_defined_other by done. apply copy_defined_same.
    rewrite !copy_defined_other, Henum by done. by apply Hbase.
  - apply copy_defined_same.
    rewrite !copy_defined_other, Henum by done. by apply Hbase.
Qed.

(** X11.  Every raw property that is not hidden and whose key is not
    internal is in the translated contract, with [type] defaulting to
    ["string"], [description] defaulting to ["Parameter: <key>"], and
    [default], [minimum], [maximum] and [maxItems] carried over as they are
    (absent when absent). *)
Theorem visible_properties_are_exposed
    (cachedSchema : jsval) (contract : Standalone.input_schema)
    (schema props : value) (key : string) (prop : value) :
  Standalone.translate cachedSchema = Ret contract →
  Standalone.cached_properties cachedSchema = Some (schema, props) →
  Js.get props key = Some prop →
  Standalone.hidden prop = false →
  Standalone.internal_field key = false →
  ∃ def,
    Standalone.properties contract !! key = Some (JObj def) ∧
    def !! "type" = Js.or_else (Js.get prop "type") (Some (JStr "string")) ∧
    def !! "description"
      = Js.or_else (Js.get prop "description") (Some (JStr ("Parameter: " +:+ key))) ∧
    def !! "default" = Js.get prop "default" ∧
    def !! "minimum" = Js.get prop "minimum" ∧
    def !! "maximum" = Js.get prop "maximum" ∧
    def !! "maxItems" = Js.get prop "maxItems".
Proof.
  intros Htr Hc Hprop Hh Hi. unfold Standalone.translate in Htr. rewrite Hc in Htr.
  destruct (for_each _ _ _) as [[ps rs]|] eqn:Hloop; [|done].
  injection Htr as <-. simpl.
  destruct (translate_entries_complete schema _ _ _ (entries_keys_nodup props) Hloop)
    as [_ Hall].
  exists (Standalone.property_definition key prop). split.
  - apply (Hall key prop); [by apply entries_get|done|done].
  - apply property_definition_fields.
Qed.

(** X11, instance: the visible field of the sample schema. *)
Lemma visible_properties_are_exposed_witness :
  ∃ contract def,
    Standalone.translate (Some sample_cached_schema) = Ret contract ∧
    Standalone.properties contract !! "prompt" = Some (JObj def) ∧
    def !! "type" = Some (JStr "string") ∧
    def !! "description" = Some (JStr "Parameter: prompt").
Proof.
  eexists.
  match goal with |- ∃ def, Standalone.translate _ = Ret ?c ∧ _ =>
    destruct (visible_properties_are_exposed (Some sample_cached_schema) c
                (JObj {[ "properties" := sample_properties;
                         "required" := JArr [JStr "prompt"] ]})
                sample_properties "prompt" (JObj {[ "type" := JStr "string" ]}))
      as (def & Hdef & Htype & Hdescription & _)
  end.
  - vm_compute. reflexivity.
  - vm_compute. reflexivity.
  - vm_compute. reflexivity.
  - reflexivity.
  - reflexivity.
  - exists def. split; [vm_compute; reflexivity|]. split; [exact Hdef|].
    split; [exact Htype|exact Hdescription].
Defined.

(** ** The Worker's input schema *)

(** The validator of an entry does not depend on the entries before it. *)
Lemma convert_entry_step (acc acc1 : gmap string Worker.zod_field)
    (key : string) (property : value) :
  Worker.convert_entry acc (key, property) = Ret acc1 →
  ∃ field,
    Worker.convert_entry ∅ (key, property) = Ret (<[key := field]> ∅) ∧
    acc1 = <[key := field]> acc.
Proof.
  unfold Worker.convert_entry.
  destruct (member property "type") as [ty|]; [|done].
  intros [= <-]. eauto.
Qed.

Lemma convert_entries (l : list (string * value)) :
  ∀ acc acc',
    NoDup l.*1 →
    for_each Worker.convert_entry acc l = Ret acc' →
    (∀ key, key ∉ l.*1 → acc' !! key = acc !! key) ∧
    (∀ key property, (key, property) ∈ l →
       ∃ field,
         Worker.convert_entry ∅ (key, property) = Ret (<[key := field]> ∅) ∧
         acc' !! key = Some field).
Proof.
  induction l as [|[k p] l IH]; intros acc acc' Hnd Hloop; cbn [for_each] in Hloop.
  - injection Hloop as <-. split; [done|]. by intros ? ? ?%elem_of_nil.
  - destruct (Worker.convert_entry acc (k, p)) as [acc1|] eqn:Hstep; [|done].
    rewrite fmap_cons in Hnd. apply NoDup_cons in Hnd as [Hk Hnd].
    destruct (IH acc1 acc' Hnd Hloop) as (Hframe & Hall).
    apply convert_entry_step in Hstep as (field & Hfield & ->). split.
    + intros key Hkey. rewrite fmap_cons in Hkey.
      apply not_elem_of_cons in Hkey as [Hne Hkey].
      by rewrite (Hframe key Hkey), lookup_insert_ne.
    + intros key property Hin. apply elem_of_cons in Hin as [[= -> ->]|Hin].
      * exists field. split; [done|]. by rewrite (Hframe k Hk), lookup_insert_eq.
      * by apply Hall.
Qed.

(** X12.  The Worker's input schema of a model with cached properties has
    exactly the keys of the raw [properties] object, hidden and internal
    ones included, each with the validator built from its own raw property;
    [userId] and [accessToken] are declared only when the raw schema has
    them.  Without usable cached properties the schema is the fallback
    [prompt], [userId], [accessToken]. *)
Theorem worker_schema_mirrors_raw_properties
    (schema : jsval) (contract : gmap string Worker.zod_field) :
  Worker.convert schema = Ret contract →
  (∃ props,
     Js.and_then schema (λ s, Js.get s "properties") = Some props ∧
     Js.truthy props = true ∧
     (∀ key, is_Some (contract !! key) ↔ is_Some (Js.get props key)) ∧
     (∀ key property, Js.get props key = Some property →
        ∃ field,
          Worker.convert_entry ∅ (key, property) = Ret (<[key := field]> ∅) ∧
          contract !! key = Some field)) ∨
  (Js.truthy_opt (Js.and_then schema (λ s, Js.get s "properties")) = false ∧
   contract = Worker.fallback_schema).
Proof.
  unfold Worker.convert.
  destruct (Js.and_then schema _) as [props|] eqn:Hprops; [|intros [= <-]; by right].
  destruct (Js.truthy props) eqn:Htruthy; [|intros [= <-]; right; by rewrite <- Htruthy].
  intros Hloop. left. exists props. split; [done|]. split; [done|].
  destruct (convert_entries _ _ _ (entries_keys_nodup props) Hloop) as [Hframe Hall].
  split.
  - intros key. split.
    + intros Hsome. destruct (Js.get props key) as [property|] eqn:Hget; [by eexists|].
      rewrite Hframe, lookup_empty in Hsome; [by destruct Hsome|].
      intros ((k & property) & -> & Hin%entries_get)%list_elem_of_fmap.
      simpl in Hget. congruence.
    + intros [property Hget]. apply entries_get in Hget.
      destruct (Hall key property Hget) as (field & _ & ->). by eexists.
  - intros key property Hget. apply entries_get in Hget. by apply Hall.
Qed.

(** X12, instance: the sample schema has no [userId] property, so the
    tool's input schema declares none. *)
Lemma worker_schema_mirrors_raw_properties_witness :
  ∃ contract,
    Worker.convert (Some sample_worker_schema) = Ret contract ∧
    is_Some (contract !! "seed") ∧
    contract !! "userId" = None.
Proof.
  eexists. split; [vm_compute; reflexivity|].
  match goal with |- is_Some (?c !! _) ∧ _ =>
    destruct (worker_schema_mirrors_raw_properties (Some sample_worker_schema) c)
      as [(props & Hprops & _ & Hkeys & _)|[Hfalse _]]
  end.
  - vm_compute. reflexivity.
  - vm_compute in Hprops. injection Hprops as <-. split.
    + apply Hkeys. vm_compute. by eexists.
    + apply eq_None_not_Some. intros Hsome%Hkeys. vm_compute in Hsome.
      by destruct Hsome.
  - vm_compute in Hfalse. discriminate Hfalse.
Defined.

(** ** Tool names *)

(** X13.  Two models whose categories contain no underscore have the same
    tool name only if they have the same category and subcategory; without
    that condition distinct models can share a tool name. *)
Theorem tool_names_identify_models :
  (∀ m1 m2,
     Standalone.toolName m1 = Standalone.toolName m2 →
     contains "_" (Standalone.category m1) = false →
     contains "_" (Standalone.category m2) = false →
     Standalone.category m1 = Standalone.category m2 ∧
     Standalone.subcategory m1 = Standalone.subcategory m2) ∧
  (∃ m1 m2,
     Standalone.toolName m1 = Standalone.toolName m2 ∧
     Standalone.category m1 ≠ Standalone.category m2).
Proof.
  split.
  - intros m1 m2 Hname H1 H2. unfold Standalone.toolName in Hname.
    apply (inj (String.append "generate_")) in Hname.
    apply (f_equal (Js.split "_")) in Hname.
    change ("_" +:+ Standalone.subcategory m1)
      with (String "_" (Standalone.subcategory m1)) in Hname.
    change ("_" +:+ Standalone.subcategory m2)
      with (String "_" (Standalone.subcategory m2)) in Hname.
    rewrite (split_first _ _ _ H1), (split_first _ _ _ H2) in Hname.
    injection Hname as Hc Hs. split; [done|].
    apply (f_equal (Js.join "_")) in Hs. by rewrite !join_split in Hs.
  - exists {| Standalone.category := "a_b"; Standalone.subcategory := "c";
              Standalone.name := "a_b/c"; Standalone.description := None |},
           {| Standalone.category := "a"; Standalone.subcategory := "b_c";
              Standalone.name := "a/b_c"; Standalone.description := None |}.
    split; [reflexivity|discriminate].
Qed.

(** X13, instance: two entries of the same model have the same tool name
    and the same category and subcategory. *)
Lemma tool_names_identify_models_witness :
  Standalone.category
    {| Standalone.category := "imagegen"; Standalone.subcategory := "flux_dev";
       Standalone.name := "imagegen/flux_dev"; Standalone.description := None |}
  = Standalone.category
      {| Standalone.category := "imagegen"; Standalone.subcategory := "flux_dev";
         Standalone.name := "Flux"; Standalone.description := Some (JStr "fast") |} ∧
  Standalone.subcategory
    {| Standalone.category := "imagegen"; Standalone.subcategory := "flux_dev";
       Standalone.name := "imagegen/flux_dev"; Standalone.description := None |}
  = Standalone.subcategory
      {| Standalone.category := "imagegen"; Standalone.subcategory := "flux_dev";
         Standalone.name := "Flux"; Standalone.description := Some (JStr "fast") |}.
Proof.
  exact (proj1 tool_names_identify_models
           {| Standalone.category := "imagegen"; Standalone.subcategory := "flux_dev";
              Standalone.name := "imagegen/flux_dev"; Standalone.description := None |}
           {| Standalone.category := "imagegen"; Standalone.subcategory := "flux_dev";
              Standalone.name := "Flux"; Standalone.description := Some (JStr "fast") |}
           eq_refl eq_refl eq_refl).
Defined.

(** ** The model catalog *)

Lemma fetchAvailableModels_run (env : remote) (w : world) :
  Catalog.fetchAvailableModels env w
  = (Ret match payload (env (calls w)) with
         | Some data =>
             match data with
             | JNull => []
             | _ =>
                 if Js.truthy_opt (Js.get data "success") then
                   match Js.get data "data" with
                   | Some models =>
                       if Js.truthy models then Catalog.parse_models models else []
                   | None => []
                   end
                 else []
             end
         | None => []
         end,
     advance w 1 [Fetch Catalog.models_request]).
Proof.
  unfold Catalog.fetchAvailableModels. rewrite try_catch_run.
  unfold mbind at 1, M_bind at 1, fetch, payload, advance.
  destruct (env (calls w)) as [e|rep]; [reflexivity|].
  destruct (ok rep); cbn [negb]; [|reflexivity].
  unfold mbind at 1, M_bind at 1, lift at 1.
  destruct (json rep) as [data|e]; [|reflexivity].
  unfold mbind, M_bind, lift.
  destruct data; cbn [member]; try reflexivity;
    match goal with
    | |- context [Js.truthy_opt ?s] => destruct (Js.truthy_opt s); cbn [negb]
    end; try reflexivity;
    match goal with
    | |- context [Js.get ?d "data"] => destruct (Js.get d "data") as [models|]
    end; try reflexivity; by destruct (Js.truthy models).
Qed.


(** X14.  [fetchAvailableModels] never throws and sends exactly one
    request.  It returns the models of the response when the response is
    [ok], parses, and has a truthy [success] and a truthy [data]; in every
    other case (network error, HTTP error status, invalid JSON, [null],
    [success] false, no [data]) it returns the empty list. *)
Theorem catalog_fetch_never_fails (env : remote) (w : world) :
  ∃ models,
    Catalog.fetchAvailableModels env w
      = (Ret models, advance w 1 [Fetch Catalog.models_request]) ∧
    (∀ data listed,
       payload (env (calls w)) = Some data →
       Js.truthy_opt (Js.get data "success") = true →
       Js.get data "data" = Some listed →
       Js.truthy listed = true →
       models = Catalog.parse_models listed) ∧
    (models ≠ [] →
     ∃ data listed,
       payload (env (calls w)) = Some data ∧
       Js.truthy_opt (Js.get data "success") = true ∧
       Js.get data "data" = Some listed ∧
       Js.truthy listed = true ∧
       models = Catalog.parse_models listed).
Proof.
  rewrite fetchAvailableModels_run. eexists. split; [reflexivity|]. split.
  - intros data listed -> Hsuccess Hdata Hlisted.
    destruct data; try (by rewrite Hsuccess, Hdata, Hlisted).
    by vm_compute in Hsuccess.
  - destruct (payload (env (calls w))) as [data|]; [|done].
    intros Hne. exists data.
    assert (Js.truthy_opt (Js.get data "success") = true ∧
            ∃ listed, Js.get data "data" = Some listed ∧ Js.truthy listed = true ∧
              (if Js.truthy_opt (Js.get data "success") then
                 match Js.get data "data" with
                 | Some models =>
                     if Js.truthy models then Catalog.parse_models models else []
                 | None => []
                 end
               else []) = Catalog.parse_models listed) as (Hs & listed & Hd & Hl & Heq).
    { destruct data; try done;
        (destruct (Js.truthy_opt (Js.get _ "success")); [|done]);
        (destruct (Js.get _ "data") as [listed|]; [|done]);
        (destruct (Js.truthy listed) eqn:Hl; [|done]);
        (split; [done|]); exists listed; by rewrite Hl. }
    exists listed. repeat split; try done.
    destruct data; try done.
Qed.

(** X14 and X15, instance: a catalog of two categories. *)
Lemma catalog_fetch_never_fails_witness :
  ∃ models,
    Catalog.fetchAvailableModels (λ _, models_reply) initial
      = (Ret models, advance initial 1 [Fetch Catalog.models_request]) ∧
    models = Catalog.parse_models
               (JObj {[ "imagegen" := JArr [JStr "flux_dev"; JStr "sdxl"];
                        "audiogen" := JArr [JStr "bark"] ]}).
Proof.
  destruct (catalog_fetch_never_fails (λ _, models_reply) initial)
    as (models & Hrun & Hok & _).
  exists models. split; [exact Hrun|].
  apply (Hok (JObj {[ "success" := JBool true;
                      "data" := JObj {[ "imagegen" := JArr [JStr "flux_dev"; JStr "sdxl"];
                                        "audiogen" := JArr [JStr "bark"] ]} ]}));
    vm_compute; reflexivity.
Defined.

Lemma catalog_generateTools_run (schemasCache : gmap string value)
    (models : list Standalone.model) (env : remote) (w : world) :
  Catalog.generateTools schemasCache models env w =
  match models with
  | [] =>
      match Catalog.fetchAvailableModels env w with
      | (Ret fetched, w') =>
          (Ret (fetched, Standalone.generateTools fetched schemasCache), w')
      | (Throw e, w') => (Throw e, w')
      end
  | _ :: _ => (Ret (models, Standalone.generateTools models schemasCache), w)
  end.
Proof.
  unfold Catalog.generateTools, mbind, M_bind. destruct models as [|m models]; [|done].
  simpl. by destruct (Catalog.fetchAvailableModels env w) as [[fetched|e] w'].
Qed.

(** X16.  Once the tool list handler has returned a non-empty list, every
    further call returns that list from [toolsCache]: the state of the
    server and the world are unchanged, so no request is sent and no schema
    is translated again. *)
Theorem tool_list_is_built_once
    (schemasCache : gmap string value) (st st1 : Catalog.server)
    (tools : list Standalone.tool) (env : remote) (w w1 : world) :
  Catalog.list_tools schemasCache st env w = (Ret (st1, Ret tools), w1) →
  tools ≠ [] →
  Catalog.toolsCache st1 = tools ∧
  ∀ env' w', Catalog.list_tools schemasCache st1 env' w' = (Ret (st1, Ret tools), w').
Proof.
  intros Hcall Hne.
  assert (Catalog.toolsCache st1 = tools) as Hcache.
  { unfold Catalog.list_tools in Hcall.
    destruct (length (Catalog.toolsCache st) =? 0)%nat.
    - unfold mbind, M_bind in Hcall.
      destruct (Catalog.generateTools schemasCache (Catalog.availableModels st) env w)
        as [[[models [ts|e]]|e] w'']; simpl in Hcall;
        unfold mret, M_ret in Hcall; try congruence.
      by injection Hcall as <- <- <-.
    - unfold mret, M_ret in Hcall. by injection Hcall as <- <- <-. }
  split; [done|]. intros env' w'. unfold Catalog.list_tools. rewrite Hcache.
  destruct tools as [|t tools]; [done|]. reflexivity.
Qed.

(** X16, instance: the sample catalog; the second call sends nothing. *)
Lemma tool_list_is_built_once_witness :
  ∃ st1 tools w1,
    Catalog.list_tools ∅ {| Catalog.availableModels := []; Catalog.toolsCache := [] |}
      (λ _, models_reply) initial = (Ret (st1, Ret tools), w1) ∧
    length tools = 3%nat ∧
    Catalog.list_tools ∅ st1 (λ _, error_reply) w1 = (Ret (st1, Ret tools), w1).
Proof.
  eexists _, _, _. split; [vm_compute; reflexivity|]. split; [reflexivity|].
  refine (proj2 (tool_list_is_built_once ∅
                   {| Catalog.availableModels := []; Catalog.toolsCache := [] |}
                   _ _ (λ _, models_reply) initial _ _ _) _ _).
  - vm_compute. reflexivity.
  - discriminate.
Defined.

(** X17.  The tool list handler sends a request only when both caches are
    empty, and an empty result is not cached: when the catalog request
    fails at the transport level the handler returns the empty list and
    leaves both caches empty, so the next call requests the catalog
    again. *)
Theorem empty_tool_list_is_not_cached
    (schemasCache : gmap string value) (st : Catalog.server) (env : remote) (w : world) :
  (Catalog.toolsCache st ≠ [] ∨ Catalog.availableModels st ≠ [] →
   ∃ r, Catalog.list_tools schemasCache st env w = (Ret r, w)) ∧
  (Catalog.toolsCache st = [] →
   Catalog.availableModels st = [] →
   transport_failure (env (calls w)) = true →
   Catalog.list_tools schemasCache st env w
   = (Ret (st, Ret []), advance w 1 [Fetch Catalog.models_request])).
Proof.
  split.
  - intros Hcached. unfold Catalog.list_tools.
    destruct (Catalog.toolsCache st) as [|t ts] eqn:Hts; [|eauto].
    destruct Hcached as [Hcached|Hmodels]; [done|].
    cbn [length Nat.eqb]. unfold mbind, M_bind.
    rewrite catalog_generateTools_run.
    destruct (Catalog.availableModels st) as [|m ms]; [done|].
    cbn [snd fst]. destruct (Standalone.generateTools _ _); eauto.
  - intros Hts Hms Hfail. unfold Catalog.list_tools. rewrite Hts.
    cbn [length Nat.eqb]. unfold mbind, M_bind.
    rewrite catalog_generateTools_run, Hms, fetchAvailableModels_run.
    rewrite (transport_failure_payload _ Hfail). cbn.
    unfold mret, M_ret. destruct st as [ms ts]. simpl in Hts, Hms. by subst.
Qed.

(** X17, instance: two calls against a failing catalog endpoint send two
    requests. *)
Lemma empty_tool_list_is_not_cached_witness :
  Catalog.list_tools ∅ {| Catalog.availableModels := []; Catalog.toolsCache := [] |}
    (λ _, error_reply) initial
    = (Ret ({| Catalog.availableModels := []; Catalog.toolsCache := [] |}, Ret []),
       advance initial 1 [Fetch Catalog.models_request]) ∧
  Catalog.list_tools ∅ {| Catalog.availableModels := []; Catalog.toolsCache := [] |}
    (λ _, error_reply) (advance initial 1 [Fetch Catalog.models_request])
    = (Ret ({| Catalog.availableModels := []; Catalog.toolsCache := [] |}, Ret []),
       advance initial 2 [Fetch Catalog.models_request; Fetch Catalog.models_request]).
Proof.
  split.
  - exact (proj2 (empty_tool_list_is_not_cached ∅
                    {| Catalog.availableModels := []; Catalog.toolsCache := [] |}
                    (λ _, error_reply) initial) eq_refl eq_refl eq_refl).
  - exact (proj2 (empty_tool_list_is_not_cached ∅
                    {| Catalog.availableModels := []; Catalog.toolsCache := [] |}
                    (λ _, error_reply)
                    (advance initial 1 [Fetch Catalog.models_request]))
             eq_refl eq_refl eq_refl).
Defined.

(** ** Further edge cases *)

(** X18.  The category the call handler reads from a tool name is always a
    string and never one of the short forms [image], [video], [audio]: the
    three rewritings leave no short form behind. *)
Theorem parsed_category_is_canonical (name : string) :
  ∃ category,
    (Standalone.parse_name name).1 = Some (JStr category) ∧
    short_category category = false.
Proof.
  unfold Standalone.parse_name.
  pose proof (split_nonempty "_" (Js.replace "generate_" "" name)) as Hparts.
  destruct (Js.split "_" (Js.replace "generate_" "" name)) as [|c parts]; [done|].
  cbn [head fmap option_fmap option_map fst is_string].
  unfold short_category.
  destruct (String.eqb c "image") eqn:Hi; cbn [is_string]; [by eexists|].
  destruct (String.eqb c "video") eqn:Hv; cbn [is_string]; [by eexists|].
  destruct (String.eqb c "audio") eqn:Ha; cbn [is_string]; [by eexists|].
  exists c. by rewrite Hi, Hv, Ha.
Qed.

(** X19.  A status response that is [ok] but whose JSON is not usable ends
    the poll with an error right after that status request.  For the JSON
    value [null] the stdio server raises the [TypeError] of reading
    [statusData.data]; the Worker raises ["Failed to get status"] for every
    falsy JSON value ([null], [false], [0], [""]), as it does for a failed
    request. *)
Theorem unusable_status_ends_the_poll :
  (∀ uid token taskId category subcategory env (k n : nat),
     (k < n)%nat →
     pending_checks not_null env 0 k →
     payload (env k) = Some JNull →
     run (Standalone.waitForCompletion uid token taskId category subcategory n) env
     = (Throw "Cannot read properties of null (reading 'data')",
        advance initial (k + 1)
          (polling (standalone_status_request uid token taskId category subcategory) 0 k
           ++ [Fetch (standalone_status_request uid token taskId category subcategory)]))) ∧
  (∀ taskId category subcategory userId accessToken env (k n : nat) statusData,
     (k < n)%nat →
     pending_checks Js.truthy env 0 k →
     payload (env k) = Some statusData →
     Js.truthy statusData = false →
     run (Worker.waitForCompletion taskId category subcategory userId accessToken n) env
     = (Throw "Failed to get status",
        advance initial (k + 1)
          (polling (worker_status_request taskId category subcategory userId accessToken)
             0 k
           ++ [Fetch (worker_status_request taskId category subcategory
                        userId accessToken)]))).
Proof.
  split.
  - intros uid token taskId category subcategory env k n Hk Hp Hnull.
    replace n with (k + S (n - S k))%nat by lia.
    rewrite (standalone_run_pending _ _ _ _ _ _ _ _ Hp), standalone_iteration. cbv zeta.
    simpl calls. rewrite Nat.add_0_r, (payload_standalone _ _ Hnull).
    cbn [member]. by rewrite advance_advance.
  - intros taskId category subcategory userId accessToken env k n v Hk Hp Hv Hfalsy.
    replace n with (k + S (n - S k))%nat by lia.
    rewrite (worker_run_pending _ _ _ _ _ _ _ _ Hp), worker_iteration. cbv zeta.
    simpl calls. rewrite Nat.add_0_r, (payload_worker _ _ Hv), Hfalsy.
    cbn [negb]. by rewrite advance_advance.
Qed.

(** X19, instance: a pending check, then the JSON value [null]. *)
Lemma unusable_status_ends_the_poll_witness :
  (run (Standalone.waitForCompletion "user" "secret" (JStr "task-1")
          (Some (JStr "imagegen")) (Some (JStr "flux_dev")) 60) env_null_status).1
  = Throw "Cannot read properties of null (reading 'data')" ∧
  (run (Worker.waitForCompletion (JStr "task-1")
          (Some (JStr "imagegen")) (Some (JStr "flux_dev"))
          (Some (JStr "user")) (Some (JStr "secret")) 60) env_null_status).1
  = Throw "Failed to get status".
Proof.
  destruct unusable_status_ends_the_poll as [Hs Hw]. split.
  - rewrite (Hs "user" "secret" (JStr "task-1") (Some (JStr "imagegen"))
               (Some (JStr "flux_dev")) env_null_status 1%nat 60%nat);
      [reflexivity|lia|by apply one_pending_check|reflexivity].
  - rewrite (Hw (JStr "task-1") (Some (JStr "imagegen")) (Some (JStr "flux_dev"))
               (Some (JStr "user")) (Some (JStr "secret")) env_null_status 1%nat 60%nat
               JNull);
      [reflexivity|lia|by apply one_pending_check|reflexivity|reflexivity].
Defined.

(** X20.  [makeGenVRRequest] never throws: it sends one request, with
    [uid] set to the user id it is given and the access token as bearer
    value, and returns the JSON payload of a response that is [ok] and
    parses, and [null] for a network error, an HTTP error status or a body
    that is not JSON.  A caller cannot tell a failure from a response whose
    JSON is [null]. *)
Theorem worker_request_never_throws
    (endpoint : string) (b : gmap string value) (userId accessToken : jsval)
    (env : remote) (w : world) :
  ∃ result,
    Worker.makeGenVRRequest endpoint b userId accessToken env w
      = (Ret result,
         advance w 1 [Fetch {| endpoint := endpoint;
                               body := Js.set_field "uid" userId b;
                               bearer := accessToken |}]) ∧
    (∀ v, payload (env (calls w)) = Some v → result = v) ∧
    (payload (env (calls w)) = None → result = JNull) ∧
    (transport_failure (env (calls w)) = true → result = JNull).
Proof.
  exists (worker_outcome (env (calls w))). split; [apply makeGenVRRequest_run|].
  split; [intros v Hv; by apply payload_worker|].
  split; [intros Hnone; unfold worker_outcome; by rewrite Hnone|].
  intros Hfail. unfold worker_outcome. by rewrite (transport_failure_payload _ Hfail).
Qed.

(** X20, instance: a server error gives [null]. *)
Lemma worker_request_never_throws_witness :
  (Worker.makeGenVRRequest "/status" ∅ (Some (JStr "user")) (Some (JStr "secret"))
     (λ _, error_reply) initial).1 = Ret JNull.
Proof.
  destruct (worker_request_never_throws "/status" ∅ (Some (JStr "user"))
              (Some (JStr "secret")) (λ _, error_reply) initial)
    as (result & Hrun & _ & _ & Hfail).
  rewrite Hrun. simpl. f_equal. apply Hfail. reflexivity.
Defined.

(** ** The registry and the schema cache *)


(** X21.  Each tool's input schema is the translation of the schema cached
    under the key [<category>/<subcategory>] of its model; a model without a
    cache entry gets the empty object schema, with no property and nothing
    required. *)
Theorem tools_use_cached_schemas
    (availableModels : list Standalone.model) (schemasCache : gmap string value)
    (tools : list Standalone.tool) (i : nat) (m : Standalone.model) :
  Standalone.generateTools availableModels schemasCache = Ret tools →
  availableModels !! i = Some m →
  ∃ t,
    tools !! i = Some t ∧
    Standalone.translate
      (schemasCache !! (Standalone.category m +:+ "/" +:+ Standalone.subcategory m))
      = Ret (Standalone.inputSchema t) ∧
    (schemasCache !! (Standalone.category m +:+ "/" +:+ Standalone.subcategory m) = None →
     Standalone.inputSchema t
     = {| Standalone.type := "object"; Standalone.properties := ∅;
          Standalone.required := [] |}).
Proof.
  intros Hgen Hm. unfold Standalone.generateTools in Hgen.
  apply for_each_push in Hgen as (bs & -> & Hbs). simpl.
  destruct (Forall2_lookup_l _ _ _ _ _ Hbs Hm) as (t & Ht & Hmk).
  exists t. split; [done|].
  unfold Standalone.make_tool in Hmk.
  destruct (Standalone.translate _) as [contract|] eqn:Htr; [|done].
  injection Hmk as <-. simpl. split; [done|].
  intros Hnone. rewrite Hnone in Htr. simpl in Htr. by injection Htr as <-.
Qed.

(** X21, instance: a model that has no cached schema. *)
Lemma tools_use_cached_schemas_witness :
  ∃ tools t,
    Standalone.generateTools [flux_dev; bark] ∅ = Ret tools ∧
    tools !! 1%nat = Some t ∧
    Standalone.inputSchema t
    = {| Standalone.type := "object"; Standalone.properties := ∅;
         Standalone.required := [] |}.
Proof.
  destruct (Standalone.generateTools [flux_dev; bark] ∅) as [tools|e] eqn:Hgen;
    [|vm_compute in Hgen; discriminate Hgen].
  destruct (tools_use_cached_schemas [flux_dev; bark] ∅ tools 1%nat bark Hgen eq_refl)
    as (t & Ht & _ & Hempty).
  exists tools, t. split; [reflexivity|]. split; [exact Ht|].
  apply Hempty. vm_compute. reflexivity.
Defined.


